(** * tqdm.contrib: remote progress sinks, their dispatcher and the logging redirect

    A shallow embedding of [tqdm/contrib/discord.py], [tqdm/contrib/telegram.py]
    and [tqdm/contrib/logging.py].

    - Python [str] values are lists of Unicode code points.
    - Python objects that the code inspects dynamically (JSON bodies, keyword
      arguments, the meter's [leave] and [disable]) are elements of [value].
    - Methods are functions in a state-and-exception monad over the receiver
      ([self]) and a chronological trace of the calls that leave the module:
      HTTP requests, dispatcher submissions, messages written to the display
      stream, warnings, and calls into the base meter. The answers of the
      outside world come from an environment [env] that sees the whole
      history, so a statement quantified over [env] covers every behaviour of
      the backend, of the dispatcher and of the base class. *)

From Stdlib Require Import ZArith NArith Lia Bool Ascii String.
From stdpp Require Import base option list sorting functions gmap strings.

Open Scope Z_scope.
Set Warnings "-register-all".

(** ** Strings *)

Definition codepoint := N.
Definition str := list codepoint.

(** A literal of the source, as the list of its code points. *)
Definition py (s : string) : str :=
  List.map N_of_ascii (list_ascii_of_string s).

Definition CR : codepoint := 13%N.

(** [str.isspace] on one code point: the white-space table of CPython. *)
Definition isspace (c : codepoint) : bool :=
  ((9 <=? c) && (c <=? 13) || (28 <=? c) && (c <=? 32)
   || (c =? 133) || (c =? 160) || (c =? 5760)
   || (8192 <=? c) && (c <=? 8202)
   || (c =? 8232) || (c =? 8233) || (c =? 8239) || (c =? 8287)
   || (c =? 12288))%N.

(** [s.replace(old, "")] for a one-character [old]. *)
Definition remove_char (old : codepoint) (s : str) : str :=
  List.filter (fun c => negb (c =? old)%N) s.

Fixpoint lstrip (s : str) : str :=
  match s with
  | c :: s' => if isspace c then lstrip s' else s
  | [] => []
  end.

Definition rstrip (s : str) : str := reverse (lstrip (reverse s)).

(** [s.strip()] *)
Definition strip (s : str) : str := rstrip (lstrip s).

Definition str_eqb (a b : str) : bool := bool_decide (a = b).

(** [needle in haystack] on two strings. *)
Fixpoint is_prefix (p s : str) : bool :=
  match p, s with
  | [], _ => true
  | a :: p', b :: s' => (a =? b)%N && is_prefix p' s'
  | _ :: _, [] => false
  end.

Fixpoint substring_in (needle hay : str) : bool :=
  is_prefix needle hay ||
  match hay with
  | [] => false
  | _ :: hay' => substring_in needle hay'
  end.

(** ** Python values *)

Inductive value : Type :=
| VNone
| VBool (b : bool)
| VInt (n : Z)
| VStr (s : str)
| VList (l : list value)
| VDict (kv : list (str * value)).

(** Truth value of an object ([if x], [not x], [x or y]). *)
Definition truthy (v : value) : bool :=
  match v with
  | VNone => false
  | VBool b => b
  | VInt n => negb (n =? 0)
  | VStr s => negb (str_eqb s [])
  | VList l => match l with [] => false | _ => true end
  | VDict kv => match kv with [] => false | _ => true end
  end.

Definition is_None (v : value) : bool :=
  match v with VNone => true | _ => false end.

Fixpoint dict_get (kv : list (str * value)) (k : str) : option value :=
  match kv with
  | [] => None
  | (k', v) :: kv' => if str_eqb k' k then Some v else dict_get kv' k
  end.

Inductive exn : Type :=
| AttributeError (attr : string)
| KeyError (key : string)
| TypeError
| JSONDecodeError
| RequestException (code : nat)
| RuntimeError (code : nat).

Inductive outcome (A : Type) : Type :=
| Returned (a : A)
| Raised (e : exn).
Arguments Returned {A} a.
Arguments Raised {A} e.

Definition returns {A} (o : outcome A) : bool :=
  match o with Returned _ => true | Raised _ => false end.

(** [k in v] for a string [k]. *)
Definition contains (v : value) (k : string) : outcome bool :=
  match v with
  | VDict kv => Returned (bool_decide (is_Some (dict_get kv (py k))))
  | VList l =>
      Returned (existsb (fun x => match x with
                                  | VStr s => str_eqb s (py k)
                                  | _ => false
                                  end) l)
  | VStr s => Returned (substring_in (py k) s)
  | VNone | VBool _ | VInt _ => Raised TypeError
  end.

(** [v[k]] for a string [k]. *)
Definition subscript (v : value) (k : string) : outcome value :=
  match v with
  | VDict kv => match dict_get kv (py k) with
                | Some x => Returned x
                | None => Raised (KeyError k)
                end
  | _ => Raised TypeError
  end.

(** [v.get(k)] for a string [k]: only dictionaries have the method. *)
Definition dot_get (v : value) (k : string) : outcome value :=
  match v with
  | VDict kv => Returned (default VNone (dict_get kv (py k)))
  | _ => Raised (AttributeError "get")
  end.

(** ** Normalisation of the string handed to [write] *)

Definition placeholder : str := py "...".

(** Lines 52-54 of both sinks:
    [if not s: s = "..."] then [s = s.replace('\r', '').strip()].
    The argument is a string or [None]. *)
Definition normalize (s : option str) : str :=
  let s1 := match s with
            | None => placeholder
            | Some t => if str_eqb t [] then placeholder else t
            end in
  strip (remove_char CR s1).

(** ** The outside world *)

(** The HTTP requests the sinks build. The URL, headers and body of the
    source are kept as the fields they are assembled from. *)
Inductive request : Type :=
| DiscordCreate (token channel_id : value) (content : str)
    (* POST {API}/channels/{channel_id}/messages *)
| DiscordPatch (token channel_id message_id : value) (content : str)
    (* PATCH {API}/channels/{channel_id}/messages/{message_id} *)
| DiscordDelete (token channel_id message_id : value)
    (* DELETE {API}/channels/{channel_id}/messages/{message_id} *)
| TelegramSendMessage (token chat_id : value) (content : str)
| TelegramEditMessageText (token chat_id message_id : value) (content : str)
| TelegramDeleteMessage (token chat_id message_id : value).

Definition is_create (r : request) : bool :=
  match r with
  | DiscordCreate _ _ _ | TelegramSendMessage _ _ _ => true
  | _ => false
  end.

(** What [requests.post] / [Session.post] gives back: an exception, or a
    response whose [.json()] is a value or raises. *)
Inductive http_reply : Type :=
| HttpRaise (e : exn)
| HttpResponse (body : option value).

(** A task handle returned by the dispatcher. *)
Abbreviation future := nat (only parsing).

(** What [MonoWorker.submit] gives back. *)
Inductive submit_reply : Type :=
| SubmitRaise (e : exn)
| SubmitFuture (f : future).

(** The attributes of the base meter that the hooks read. *)
Record std_fields : Type := StdFields {
  disable : value;
  leave : value;
  pos : Z
}.

Inductive event : Type :=
| EvHttp (r : request) (a : http_reply)
    (* a request sent synchronously by the calling thread *)
| EvSubmit (r : request) (a : submit_reply)
    (* a request handed to the dispatcher *)
| EvWrite (e : exn)
    (* tqdm_auto.write(str(e)) *)
| EvWarn (msg : string)
    (* warnings.warn(msg) *)
| EvNewPool
    (* MonoWorker.__init__: the worker thread and its backlog *)
| EvNewSession
    (* requests.Session() *)
| EvStdInit (args : list value) (kwargs : gmap string value)
    (a : outcome std_fields)
    (* tqdm_auto.__init__ with the arguments passed on *)
| EvStdClose (a : outcome std_fields).
    (* tqdm_auto.close() *)

Definition trace := list event.

(** Requests that reach the network: sent directly, or accepted by the
    dispatcher. *)
Definition is_network (ev : event) : bool :=
  match ev with
  | EvHttp _ _ | EvSubmit _ _ => true
  | _ => false
  end.

Definition is_submission (ev : event) : bool :=
  match ev with
  | EvSubmit _ (SubmitFuture _) => true
  | _ => false
  end.

Definition is_create_request (ev : event) : bool :=
  match ev with
  | EvHttp r _ | EvSubmit r _ => is_create r
  | _ => false
  end.

Definition network_calls (t : trace) : nat := length (List.filter is_network t).
Definition submissions (t : trace) : nat := length (List.filter is_submission t).
Definition create_requests (t : trace) : nat :=
  length (List.filter is_create_request t).

(** The environment answers every outgoing call from the history so far. *)
Record env : Type := Env {
  http_answer : trace -> request -> http_reply;
  submit_answer : trace -> request -> submit_reply;
  std_init_answer :
    trace -> list value -> gmap string value -> outcome std_fields;
  std_close_answer : trace -> std_fields -> outcome std_fields;
  getenv : string -> value
}.

(** ** The monad of methods

    A method of an object of type [S] takes the receiver and the history and
    gives back its outcome, the receiver as mutated, and the extended
    history. Mutations made before an exception is raised persist. *)
Definition M (S A : Type) : Type := S -> trace -> outcome A * S * trace.

Definition ret {S A} (a : A) : M S A := fun s t => (Returned a, s, t).
Definition raise {S A} (e : exn) : M S A := fun s t => (Raised e, s, t).

Definition bind {S A B} (m : M S A) (k : A -> M S B) : M S B :=
  fun s t =>
    match m s t with
    | (Returned a, s', t') => k a s' t'
    | (Raised e, s', t') => (Raised e, s', t')
    end.

(** [try: body / except Exception as e: handler(e) / else: orelse(x)].
    Exceptions raised by [orelse] are not handled. *)
Definition try_except_else {S A B} (body : M S A) (handler : exn -> M S B)
    (orelse : A -> M S B) : M S B :=
  fun s t =>
    match body s t with
    | (Returned a, s', t') => orelse a s' t'
    | (Raised e, s', t') => handler e s' t'
    end.

Definition get {S} : M S S := fun s t => (Returned s, s, t).
Definition put {S} (s' : S) : M S unit := fun _ t => (Returned tt, s', t).
Definition lift {S A} (o : outcome A) : M S A := fun s t => (o, s, t).
Definition emit {S} (ev : event) : M S unit :=
  fun s t => (Returned tt, s, t ++ [ev]).

Declare Scope py_scope.
Delimit Scope py_scope with py_.
Notation "x <- m ;; k" := (bind m (fun x => k))
  (at level 100, m at next level, right associativity) : py_scope.
Notation "m ;;; k" := (bind m (fun _ => k))
  (at level 100, right associativity) : py_scope.
Open Scope py_scope.

Section World.
Variable E : env.

(** [requests.post(...)] on the calling thread. *)
Definition http {S} (r : request) : M S http_reply :=
  fun s t =>
    let a := http_answer E t r in
    (Returned a, s, t ++ [EvHttp r a]).

(** [response.json()] *)
Definition json_of (a : http_reply) : outcome value :=
  match a with
  | HttpRaise e => Raised e
  | HttpResponse (Some v) => Returned v
  | HttpResponse None => Raised JSONDecodeError
  end.

(** [self.submit(func, url, ...)], inherited from [MonoWorker]: the task is
    handed over, and the handle or the exception that comes back is the
    environment's answer. *)
Definition submit {S} (r : request) : M S future :=
  fun s t =>
    let a := submit_answer E t r in
    (match a with
     | SubmitRaise e => Raised e
     | SubmitFuture f => Returned f
     end, s, t ++ [EvSubmit r a]).

(** [tqdm_auto.write(str(e))] *)
Definition tqdm_write {S} (e : exn) : M S unit := emit (EvWrite e).

(** [warnings.warn(msg)] *)
Definition warn {S} (msg : string) : M S unit := emit (EvWarn msg).

End World.

(** The content of every message: the text between back-quotes. *)
Definition quoted (s : str) : str := py "`" ++ s ++ py "`".

(** [v == n] for an integer literal [n]. *)
Definition eq_int (v : value) (n : Z) : bool :=
  match v with
  | VInt m => m =? n
  | VBool b => (if b then 1 else 0) =? n
  | _ => false
  end.

(** * discord.py *)

Module DiscordIO.

(** [_message_id] is [None] while the instance has no such attribute. *)
Record t : Type := Build {
  token : value;
  channel_id : value;
  text : str;
  _message_id : option value
}.

Definition set_text (s : str) (self : t) : t :=
  Build (token self) (channel_id self) s (_message_id self).
Definition set_message_id (v : value) (self : t) : t :=
  Build (token self) (channel_id self) (text self) (Some v).

Section Methods.
Variable E : env.

(** The property [message_id], lines 28-48. *)
Definition message_id : M t value :=
  self <- get ;;
  match _message_id self with
  | Some v => ret v
  | None =>
      try_except_else
        (a <- http E (DiscordCreate (token self) (channel_id self)
                        (quoted (text self))) ;;
         lift (json_of a))
        (fun e => tqdm_write e ;;; ret VNone)
        (fun res =>
           has_id <- lift (contains res "id") ;;
           if (has_id : bool) then
             v <- lift (subscript res "id") ;;
             self <- get ;;
             put (set_message_id v self) ;;;
             ret v
           else ret VNone)
  end.

(** [DiscordIO(token, channel_id)], lines 20-26. *)
Definition __init__ (token channel_id : value) (h : trace)
    : outcome t * trace :=
  let self := Build token channel_id (py "DiscordIO") None in
  match (emit EvNewPool ;;; message_id) self h with
  | (Returned _, self', h') => (Returned self', h')
  | (Raised e, _, h') => (Raised e, h')
  end.

(** [write], lines 50-76. *)
Definition write (s : option str) : M t (option future) :=
  let s := normalize s in
  self <- get ;;
  if str_eqb s (text self) then ret None else
  mid <- message_id ;;
  if is_None mid then ret None else
  self <- get ;;
  put (set_text s self) ;;;
  try_except_else
    (submit E (DiscordPatch (token self) (channel_id self) mid (quoted s)))
    (fun e => tqdm_write e ;;; ret None)
    (fun f => ret (Some f)).

(** [delete], lines 78-93. *)
Definition delete : M t (option future) :=
  try_except_else
    (self <- get ;;
     mid <- message_id ;;
     submit E (DiscordDelete (token self) (channel_id self) mid))
    (fun e => tqdm_write e ;;; ret None)
    (fun f => ret (Some f)).

End Methods.
End DiscordIO.

(** Attribute access [self.<name>.<method>()] on an attribute that may be
    missing. *)
Definition call_attr {S O A} (name : string) (proj : S -> option O)
    (inj : O -> S -> S) (m : M O A) : M S A :=
  fun self h =>
    match proj self with
    | None => (Raised (AttributeError name), self, h)
    | Some o => let '(a, o', h') := m o h in (a, inj o' self, h')
    end.

(** [super().close()] *)
Definition std_close {S} (E : env) (proj : S -> std_fields)
    (inj : std_fields -> S -> S) : M S unit :=
  fun self h =>
    let a := std_close_answer E h (proj self) in
    (match a with
     | Returned f => (Returned tt, inj f self)
     | Raised e => (Raised e, self)
     end, h ++ [EvStdClose a]).

(** [self.leave or (self.leave is None and self.pos == 0)] *)
Definition leave_policy (f : std_fields) : bool :=
  truthy (leave f) || (is_None (leave f) && (pos f =? 0)).

Module tqdm_discord.

(** [dio] is [None] while the instance has no such attribute. *)
Record t : Type := Build {
  dio : option DiscordIO.t;
  std : std_fields
}.

Definition set_dio (o : DiscordIO.t) (self : t) : t := Build (Some o) (std self).
Definition set_std (f : std_fields) (self : t) : t := Build (dio self) f.

Section Methods.
Variable E : env.

(** [tqdm_discord] with positional arguments [args] and keyword
    arguments [kwargs], lines 117-123. The base constructor is not part of
    this module: the event [EvStdInit] stands for its whole run, with its
    arguments and its outcome. What it does by calling the methods of the
    instance (the overridden [display], and through it [dio.write]) is
    inside that run and is not unfolded into events of the sink. *)
Definition __init__ (args : list value) (kwargs : gmap string value)
    (h : trace) : outcome t * trace :=
  let '(io, kwargs1, h1) :=
    if negb (truthy (default VNone (kwargs !! "disable"))) then
      let tok := default (getenv E "TQDM_DISCORD_TOKEN") (kwargs !! "token") in
      let kwargs := delete "token" kwargs in
      let chan := default (getenv E "TQDM_DISCORD_CHANNEL_ID")
                    (kwargs !! "channel_id") in
      let kwargs := delete "channel_id" kwargs in
      let '(o, h') := DiscordIO.__init__ E tok chan h in
      (match o with
       | Returned io => Returned (Some io)
       | Raised e => Raised e
       end, kwargs, h')
    else (Returned None, kwargs, h) in
  match io with
  | Raised e => (Raised e, h1)
  | Returned io =>
      let a := std_init_answer E h1 args kwargs1 in
      (match a with
       | Returned f => Returned (Build io f)
       | Raised e => Raised e
       end, h1 ++ [EvStdInit args kwargs1 a])
  end.

(** [close], lines 143-148. *)
Definition close : M t unit :=
  self <- get ;;
  if truthy (disable (std self)) then ret tt else
  std_close E std set_std ;;;
  self <- get ;;
  if negb (leave_policy (std self)) then
    call_attr "dio" dio set_dio (DiscordIO.delete E) ;;; ret tt
  else ret tt.

End Methods.
End tqdm_discord.

(** * telegram.py *)

Definition too_many_requests : string :=
  "Too Many Requests. See https://core.telegram.org/bots/faq#my-bot-is-hitting-limits-how-do-i-avoid-this".

Module TelegramIO.

(** [message_id] is [None] while the instance has no such attribute. The
    [session] attribute is the one opened by the constructor. *)
Record t : Type := Build {
  token : value;
  chat_id : value;
  text : str;
  message_id : option value
}.

Definition set_text (s : str) (self : t) : t :=
  Build (token self) (chat_id self) s (message_id self).
Definition set_message_id (v : value) (self : t) : t :=
  Build (token self) (chat_id self) (text self) (Some v).

(** Reading the attribute [self.message_id]. *)
Definition get_message_id : M t value :=
  self <- get ;;
  match message_id self with
  | Some v => ret v
  | None => raise (AttributeError "message_id")
  end.

Section Methods.
Variable E : env.

(** The body of [__init__] after the attributes are assigned,
    lines 38-48. *)
Definition create : M t unit :=
  self <- get ;;
  try_except_else
    (a <- http E (TelegramSendMessage (token self) (chat_id self)
                    (quoted (text self))) ;;
     match a with
     | HttpRaise e => raise e
     | HttpResponse _ => ret a
     end)
    (fun e => tqdm_write e)
    (fun res =>
       j <- lift (json_of res) ;;
       code <- lift (dot_get j "error_code") ;;
       (if eq_int code 429 then warn too_many_requests else ret tt) ;;;
       j <- lift (json_of res) ;;
       r <- lift (subscript j "result") ;;
       v <- lift (subscript r "message_id") ;;
       self <- get ;;
       put (set_message_id v self)).

(** [TelegramIO(token, chat_id)], lines 31-48. *)
Definition __init__ (token chat_id : value) (h : trace)
    : outcome t * trace :=
  let self := Build token chat_id (py "TelegramIO") None in
  match (emit EvNewPool ;;; emit EvNewSession ;;; create) self h with
  | (Returned _, self', h') => (Returned self', h')
  | (Raised e, _, h') => (Raised e, h')
  end.

(** [write], lines 50-66. *)
Definition write (s : option str) : M t (option future) :=
  let s := normalize s in
  self <- get ;;
  if str_eqb s (text self) then ret None else
  put (set_text s self) ;;;
  try_except_else
    (mid <- get_message_id ;;
     submit E (TelegramEditMessageText (token self) (chat_id self) mid
                 (quoted s)))
    (fun e => tqdm_write e ;;; ret None)
    (fun f => ret (Some f)).

(** [delete], lines 68-77. *)
Definition delete : M t (option future) :=
  try_except_else
    (self <- get ;;
     mid <- get_message_id ;;
     submit E (TelegramDeleteMessage (token self) (chat_id self) mid))
    (fun e => tqdm_write e ;;; ret None)
    (fun f => ret (Some f)).

End Methods.
End TelegramIO.

Module tqdm_telegram.

(** [tgio] is [None] while the instance has no such attribute. *)
Record t : Type := Build {
  tgio : option TelegramIO.t;
  std : std_fields
}.

Definition set_tgio (o : TelegramIO.t) (self : t) : t :=
  Build (Some o) (std self).
Definition set_std (f : std_fields) (self : t) : t := Build (tgio self) f.

Section Methods.
Variable E : env.

(** [tqdm_telegram] with positional arguments [args] and keyword
    arguments [kwargs], lines 111-117. [1.0] is the default of
    [mininterval]; it is passed on as the integer 1. As for
    [tqdm_discord], the event [EvStdInit] stands for the whole run of the
    base constructor, and what that run does by calling [display] is not
    unfolded into events of the sink. *)
Definition __init__ (args : list value) (kwargs : gmap string value)
    (h : trace) : outcome t * trace :=
  let '(io, kwargs1, h1) :=
    if negb (truthy (default VNone (kwargs !! "disable"))) then
      let tok := default (getenv E "TQDM_TELEGRAM_TOKEN") (kwargs !! "token") in
      let kwargs := delete "token" kwargs in
      let chat := default (getenv E "TQDM_TELEGRAM_CHAT_ID")
                    (kwargs !! "chat_id") in
      let kwargs := delete "chat_id" kwargs in
      let '(o, h') := TelegramIO.__init__ E tok chat h in
      (match o with
       | Returned io => Returned (Some io)
       | Raised e => Raised e
       end, kwargs, h')
    else (Returned None, kwargs, h) in
  match io with
  | Raised e => (Raised e, h1)
  | Returned io =>
      let kwargs2 :=
        <["mininterval" := default (VInt 1) (kwargs1 !! "mininterval")]>
          (delete "mininterval" kwargs1) in
      let a := std_init_answer E h1 args kwargs2 in
      (match a with
       | Returned f => Returned (Build io f)
       | Raised e => Raised e
       end, h1 ++ [EvStdInit args kwargs2 a])
  end.

(** [close], lines 134-139. *)
Definition close : M t unit :=
  self <- get ;;
  if truthy (disable (std self)) then ret tt else
  std_close E std set_std ;;;
  self <- get ;;
  if negb (leave_policy (std self)) then
    call_attr "tgio" tgio set_tgio (TelegramIO.delete E) ;;; ret tt
  else ret tt.

End Methods.
End tqdm_telegram.

(** * The dispatcher *)

Module MonoWorker.

(** Modelled from the spec: the completion state of a task handle of
    [utils_worker.py], which is not among the sources (section 4.1:
    pending, then running and done, or cancelled). *)
Inductive status : Type := Pending | Running | Done | Cancelled.

#[global] Instance status_eq_dec : EqDecision status.
Proof. solve_decision. Defined.

Definition status_eqb (a b : status) : bool :=
  match a, b with
  | Pending, Pending | Running, Running | Done, Done
  | Cancelled, Cancelled => true
  | _, _ => false
  end.

(** A handle is the position of its task in submission order. *)
Abbreviation handle := nat (only parsing).

(** Modelled from the spec: [utils_worker.py], which defines the class
    [MonoWorker] that both sinks inherit from, is not among the sources.
    The state is the one the spec describes: one worker thread that takes
    the submitted tasks in order, each task with its completion state, and
    a backlog of at most two handles, oldest first. [started] records the
    handles in the order in which the worker began to execute them. *)
Record t : Type := Build {
  tasks : list status;
  backlog : list handle;
  started : list handle
}.

(** Modelled from the spec: the bound N = 2 of the backlog of
    [utils_worker.py]. *)
Definition capacity : nat := 2.

(** Modelled from the spec: a new dispatcher of [utils_worker.py] has no
    task and an empty backlog. *)
Definition __init__ : t := Build [] [] [].

Definition status_of (w : t) (h : handle) : option status := tasks w !! h.

(** Modelled from the spec: [Future.cancel] on the handle [h]: it takes
    effect only on a task that has not started. *)
Definition cancel (h : handle) (ts : list status) : list status :=
  match ts !! h with
  | Some Pending => <[h := Cancelled]> ts
  | _ => ts
  end.

(** Modelled from the spec: [submit], section 4.1 steps 1 to 3: enqueue
    the task on the worker, append its handle to the backlog, and when the
    backlog is longer than the capacity pop the oldest handle and cancel
    it if it has not started. The call is one atomic step for the
    worker. *)
Definition submit (w : t) : handle * t :=
  let h := length (tasks w) in
  let ts := tasks w ++ [Pending] in
  let bl := backlog w ++ [h] in
  if decide (capacity < length bl)%nat then
    match bl with
    | oldest :: rest => (h, Build (cancel oldest ts) rest (started w))
    | [] => (h, Build ts bl (started w))
    end
  else (h, Build ts bl (started w)).

(** Modelled from the spec: the single worker of [utils_worker.py] takes
    the tasks in submission order, so the next one is the first that is
    still pending. *)
Fixpoint first_pending (ts : list status) : option nat :=
  match ts with
  | [] => None
  | Pending :: _ => Some 0%nat
  | _ :: ts' => S <$> first_pending ts'
  end.

(** Modelled from the spec: the worker of [utils_worker.py] runs one task
    at a time. *)
Definition busy (w : t) : bool := existsb (status_eqb Running) (tasks w).

(** Modelled from the spec: the worker thread, when idle, begins the
    oldest task that is still pending. *)
Definition start (w : t) : t :=
  if busy w then w else
  match first_pending (tasks w) with
  | Some h => Build (<[h := Running]> (tasks w)) (backlog w) (started w ++ [h])
  | None => w
  end.

(** Modelled from the spec: the running task completes, with a result or
    an error. *)
Definition finish (w : t) : t :=
  Build ((fun s => match s with Running => Done | _ => s end) <$> tasks w)
        (backlog w) (started w).

(** Modelled from the spec: the moves of the caller's thread and of the
    worker thread of [utils_worker.py], in the order in which they
    interleave. *)
Inductive action : Type := Submit | Start | Finish.

Definition step (w : t) (a : action) : t :=
  match a with
  | Submit => snd (submit w)
  | Start => start w
  | Finish => finish w
  end.

Definition run (w : t) (acts : list action) : t := fold_left step acts w.

(** The handle that the next submission evicts, if any. *)
Definition evicted_by_submit (w : t) : option handle :=
  if decide (capacity < length (backlog w ++ [length (tasks w)]))%nat
  then head (backlog w) else None.

End MonoWorker.

(** * logging.py *)

Module Logging.

Inductive stream : Type := Stdout | Stderr | OtherStream (n : nat).

Definition is_std_stream (s : stream) : bool :=
  match s with Stdout | Stderr => true | OtherStream _ => false end.

(** A handler object: a [logging.StreamHandler] (or a subclass of it, such
    as [FileHandler]), the [_TqdmLoggingHandler] of this module, or a
    handler that is not a stream handler. *)
Inductive handler : Type :=
| StreamHandler (stream : stream) (formatter : option nat)
| TqdmLoggingHandler (tqdm_class : nat) (stream : stream)
    (formatter : option nat)
| OtherHandler (id : nat).

Definition formatter_of (h : handler) : option nat :=
  match h with
  | StreamHandler _ f | TqdmLoggingHandler _ _ f => f
  | OtherHandler _ => None
  end.

Definition stream_of (h : handler) : option stream :=
  match h with
  | StreamHandler s _ | TqdmLoggingHandler _ s _ => Some s
  | OtherHandler _ => None
  end.

(** Lines 40-42. *)
Definition _is_console_logging_handler (h : handler) : bool :=
  match h with
  | StreamHandler s _ | TqdmLoggingHandler _ s _ => is_std_stream s
  | OtherHandler _ => false
  end.

(** Lines 45-49. *)
Fixpoint _get_first_found_console_logging_handler (handlers : list handler)
    : option handler :=
  match handlers with
  | [] => None
  | h :: rest =>
      if _is_console_logging_handler h then Some h
      else _get_first_found_console_logging_handler rest
  end.

Abbreviation logger := nat (only parsing).
Abbreviation loc := nat (only parsing).

(** The loggers and the list objects their [handlers] attributes refer to.
    Two loggers may refer to one list object; [next] is the first address
    not yet in use. *)
Record heap : Type := Heap {
  handlers : logger -> loc;
  lists : loc -> list handler;
  next : loc
}.

Definition handlers_of (m : heap) (lg : logger) : list handler :=
  lists m (handlers m lg).

(** [logger.handlers = <new list with contents l>] *)
Definition assign_new_list (lg : logger) (l : list handler) (m : heap) : heap :=
  Heap (<[lg := next m]> (handlers m)) (<[next m := l]> (lists m)) (S (next m)).

(** [logger.handlers = <the list object at a>] *)
Definition assign (lg : logger) (a : loc) (m : heap) : heap :=
  Heap (<[lg := a]> (handlers m)) (lists m) (next m).

(** [_TqdmLoggingHandler(tqdm_class)]: a [StreamHandler] made without a
    stream writes to [sys.stderr], and has no formatter. *)
Definition new_tqdm_handler (tqdm_class : nat) : handler :=
  TqdmLoggingHandler tqdm_class Stderr None.

(** The body of the loop at lines 90-98. *)
Definition redirect_one (tqdm_class : nat) (m : heap) (lg : logger) : heap :=
  let tqdm_handler := new_tqdm_handler tqdm_class in
  let orig_handler :=
    _get_first_found_console_logging_handler (handlers_of m lg) in
  let tqdm_handler :=
    match orig_handler with
    | Some o =>
        TqdmLoggingHandler tqdm_class (default Stderr (stream_of o))
          (formatter_of o)
    | None => tqdm_handler
    end in
  assign_new_list lg
    (List.filter (fun h => negb (_is_console_logging_handler h))
       (handlers_of m lg) ++ [tqdm_handler]) m.

Definition root : logger := 0%nat.

(** Lines 86-98: the state in which the body of the [with] runs, together
    with the saved references. *)
Definition enter (loggers : option (list logger)) (tqdm_class : nat)
    (m : heap) : list logger * list loc * heap :=
  let loggers := default [root] loggers in
  let original_handlers_list := List.map (handlers m) loggers in
  (loggers, original_handlers_list,
   fold_left (redirect_one tqdm_class) loggers m).

(** Lines 100-102. *)
Definition restore (loggers : list logger) (original_handlers_list : list loc)
    (m : heap) : heap :=
  fold_left (fun m '(lg, a) => assign lg a m)
    (zip loggers original_handlers_list) m.

(** [with logging_redirect_tqdm(loggers, tqdm_class): body]. The body is
    any code of the caller; it ends normally or with an exception. *)
Definition logging_redirect_tqdm (loggers : option (list logger))
    (tqdm_class : nat) (body : heap -> outcome unit * heap) (m : heap)
    : outcome unit * heap :=
  let '(loggers, original_handlers_list, m1) := enter loggers tqdm_class m in
  let '(r, m2) := body m1 in
  (r, restore loggers original_handlers_list m2).

End Logging.

(** * The display and clear hooks of the meters *)

(** [s.replace(old, new)]: the occurrences of [old] are found from the left
    and do not overlap. [skip] counts the characters of a matched
    occurrence that are still to be dropped. *)
Fixpoint replace_from (old new s : str) (skip : nat) : str :=
  match s with
  | [] => []
  | c :: s' =>
      match skip with
      | S k => replace_from old new s' k
      | O =>
          if is_prefix old s
          then new ++ replace_from old new s' (length old - 1)
          else c :: replace_from old new s' 0
      end
  end.

(** With an empty [old], [new] is put before every character and at the
    end. *)
Definition replace (old new s : str) : str :=
  match old with
  | [] => new ++ flat_map (fun c => c :: new) s
  | _ :: _ => replace_from old new s 0
  end.

(** The answers of the base meter to the calls of [display] and [clear]:
    [super().display()], the property [format_dict], the static method
    [format_meter] and [super().clear()]. *)
Record std_hooks : Type := StdHooks {
  std_display_answer : trace -> std_fields -> outcome unit;
  format_dict_answer : trace -> std_fields -> gmap string value;
  format_meter_answer : gmap string value -> outcome str;
  std_clear_answer : trace -> std_fields -> outcome std_fields
}.

Definition std_display {S} (H : std_hooks) (proj : S -> std_fields)
    : M S unit :=
  fun self h => (std_display_answer H h (proj self), self, h).

Definition format_dict {S} (H : std_hooks) (proj : S -> std_fields)
    : M S (gmap string value) :=
  fun self h => (Returned (format_dict_answer H h (proj self)), self, h).


(** The bar of the remote message, ten characters wide. *)
Definition bar10 : str := py "{bar:10u}".

(** discord.py lines 128-135, telegram.py lines 122-126: the value that
    [display] stores under ["bar_format"]. A true value that is not a
    string has no [replace]. *)
Definition with_fixed_bar (fmt : gmap string value)
    : outcome (gmap string value) :=
  let v := default VNone (fmt !! "bar_format") in
  if truthy v then
    match v with
    | VStr f =>
        Returned (<["bar_format" :=
                      VStr (replace (py "{bar}") bar10
                              (replace (py "<bar/>") bar10 f))]> fmt)
    | _ => Raised (AttributeError "replace")
    end
  else Returned (<["bar_format" := VStr (py "{l_bar}{bar:10u}{r_bar}")]> fmt).

(** [tqdm_discord.display], lines 125-136. The attribute [self.dio] is
    looked up before the argument of [write] is computed. *)
Definition tqdm_discord_display (E : env) (H : std_hooks)
    : M tqdm_discord.t unit :=
  std_display H tqdm_discord.std ;;;
  fmt <- format_dict H tqdm_discord.std ;;
  fmt <- lift (with_fixed_bar fmt) ;;
  self <- get ;;
  match tqdm_discord.dio self with
  | None => raise (AttributeError "dio")
  | Some _ =>
      s <- lift (format_meter_answer H fmt) ;;
      call_attr "dio" tqdm_discord.dio tqdm_discord.set_dio
        (DiscordIO.write E (Some s)) ;;;
      ret tt
  end.


(** [tqdm_telegram.display], lines 119-127. *)
Definition tqdm_telegram_display (E : env) (H : std_hooks)
    : M tqdm_telegram.t unit :=
  std_display H tqdm_telegram.std ;;;
  fmt <- format_dict H tqdm_telegram.std ;;
  fmt <- lift (with_fixed_bar fmt) ;;
  self <- get ;;
  match tqdm_telegram.tgio self with
  | None => raise (AttributeError "tgio")
  | Some _ =>
      s <- lift (format_meter_answer H fmt) ;;
      call_attr "tgio" tqdm_telegram.tgio tqdm_telegram.set_tgio
        (TelegramIO.write E (Some s)) ;;;
      ret tt
  end.


(** * logging.py: the handler and the logging meter *)

Module TqdmLoggingHandler.

(** What a call can raise: the two exceptions that [emit] lets through,
    or any other one. *)
Inductive raised : Type :=
| KeyboardInterrupt
| SystemExit
| OtherException (e : exn).

(** The calls that [emit] makes, with what they returned or raised. *)
Inductive call : Type :=
| Format (record : nat) (a : str + raised)
    (* self.format(record) *)
| TqdmWrite (msg : str) (stream : Logging.stream) (a : option raised)
    (* self.tqdm_class.write(msg, file=self.stream) *)
| Flush (a : option raised)
    (* self.flush() *)
| HandleError (record : nat) (a : option raised).
    (* self.handleError(record) *)

(** The answers to these calls, from the calls made so far. *)
Record world : Type := World {
  format_answer : list call -> nat -> str + raised;
  write_answer : list call -> str -> Logging.stream -> option raised;
  flush_answer : list call -> option raised;
  handleError_answer : list call -> nat -> option raised
}.

(** The [try] block of [emit], lines 30-33: the calls made and the
    exception that ended the block, if any. *)
Definition emit_body (W : world) (stream : Logging.stream) (record : nat)
    (h : list call) : list call * option raised :=
  let a := format_answer W h record in
  let h := h ++ [Format record a] in
  match a with
  | inr e => (h, Some e)
  | inl msg =>
      let a := write_answer W h msg stream in
      let h := h ++ [TqdmWrite msg stream a] in
      match a with
      | Some e => (h, Some e)
      | None =>
          let a := flush_answer W h in
          (h ++ [Flush a], a)
      end
  end.

(** [_TqdmLoggingHandler.emit], lines 29-37, on a handler whose stream is
    [stream]. *)
Definition emit (W : world) (stream : Logging.stream) (record : nat)
    (h : list call) : list call * option raised :=
  match emit_body W stream record h with
  | (h', None) => (h', None)
  | (h', Some KeyboardInterrupt) => (h', Some KeyboardInterrupt)
  | (h', Some SystemExit) => (h', Some SystemExit)
  | (h', Some (OtherException _)) =>
      let a := handleError_answer W h' record in
      (h' ++ [HandleError record a], a)
  end.

End TqdmLoggingHandler.

Module logging_tqdm.

(** The logger of the module, [LOGGER], or one given by the caller. *)
Inductive logger_ref : Type :=
| LOGGER
| Given (logger : value).

Inductive log_event : Type :=
| Debug (format : string)
    (* LOGGER.debug(format, ...) *)
| Info (logger : logger_ref) (msg : str).
    (* logger.info('%s', msg) *)

(** The attributes that the class adds to the base meter. *)
Record t : Type := Build {
  _logger : value;
  _last_log_n : Z
}.

(** What the constructor raises: its own [ValueError], or an exception of
    the base constructor. *)
Inductive init_error : Type :=
| ValueError (msg : string)
| BaseError (e : exn).

(** [dict.setdefault(key, v)] *)
Definition setdefault (key : string) (v : value) (d : gmap string value)
    : gmap string value :=
  match d !! key with
  | Some _ => d
  | None => <[key := v]> d
  end.

(** [logging_tqdm] with positional arguments [args] and keyword arguments
    [kwargs], lines 169-192. *)
Definition __init__ (E : env) (args : list value)
    (kwargs : gmap string value) (h : trace)
    : (t * std_fields + init_error) * trace :=
  if decide (2 <= length args)%nat then
    let kw : gmap string value := {[ "disable" := VBool true ]} in
    let a := std_init_answer E h [VList []] kw in
    let h' := h ++ [EvStdInit [VList []] kw a] in
    match a with
    | Returned _ =>
        (inr (ValueError "only iterable may be used as a positional argument"),
         h')
    | Raised e => (inr (BaseError e), h')
    end
  else
    let logger := default VNone (kwargs !! "logger") in
    let tqdm_kwargs := delete "logger" kwargs in
    let tqdm_kwargs := setdefault "mininterval" (VInt 1) tqdm_kwargs in
    let tqdm_kwargs :=
      setdefault "bar_format" (VStr (py "{desc}{percentage:3.0f}%{r_bar}"))
        tqdm_kwargs in
    let tqdm_kwargs := setdefault "desc" (VStr (py "progress: ")) tqdm_kwargs in
    let a := std_init_answer E h args tqdm_kwargs in
    let h' := h ++ [EvStdInit args tqdm_kwargs a] in
    match a with
    | Returned f => (inl (Build logger (-1), f), h')
    | Raised e => (inr (BaseError e), h')
    end.

(** [_get_logger], lines 194-197. *)
Definition _get_logger (self : t) : logger_ref :=
  if is_None (_logger self) then LOGGER else Given (_logger self).

(** [display], lines 199-214. [n] is the counter of the base meter,
    [self.n]; [str_self] is what [self.__str__()] would return; [msg] is
    [None] or a string. *)
Definition display (n : Z) (str_self : str) (msg : option str) (self : t)
    : t * list log_event :=
  if n =? 0 then
    (self, [Debug "ignoring message before any progress: %r"])
  else if n =? _last_log_n self then
    (self, [Debug "ignoring log message with same n: %r"])
  else
    let self := Build (_logger self) n in
    let msg := default str_self msg in
    if str_eqb msg [] then (self, [Debug "ignoring empty message: %r"])
    else (self, [Info (_get_logger self) msg]).

(** A run of calls of [display], each with the counter, the rendering of
    the meter and the argument of the call. *)
Fixpoint displays (calls : list (Z * str * option str)) (self : t)
    : t * list log_event :=
  match calls with
  | [] => (self, [])
  | (n, str_self, msg) :: rest =>
      let '(self1, out1) := display n str_self msg self in
      let '(self2, out2) := displays rest self1 in
      (self2, out1 ++ out2)
  end.

End logging_tqdm.

(** * Vocabulary of the statements *)

Definition all_space (s : str) : Prop := forallb isspace s = true.

(** No white space at the given end of a string. *)
Definition clean_end (c : option codepoint) : Prop :=
  match c with
  | Some c => isspace c = false
  | None => True
  end.

(** The string that [write] works on once the empty input is replaced. *)
Definition or_placeholder (s : option str) : str :=
  match s with
  | None | Some [] => placeholder
  | Some t => t
  end.

(** The create request of the Discord property ends without an identifier
    and without an exception: the request or [.json()] raises (which the
    property catches), or the body has no ["id"]. *)
Definition create_fails_quietly (a : http_reply) : Prop :=
  match json_of a with
  | Raised _ => True
  | Returned res => contains res "id" = Returned false
  end.

(** The answer to a create request is an exception, a body that is not
    JSON, or a JSON object. *)
Definition answers_object (a : http_reply) : Prop :=
  match json_of a with
  | Raised _ => True
  | Returned (VDict _) => True
  | Returned _ => False
  end.

(** The create request that a Discord sink sends. *)
Definition discord_create (self : DiscordIO.t) : request :=
  DiscordCreate (DiscordIO.token self) (DiscordIO.channel_id self)
    (quoted (DiscordIO.text self)).

(** An exception raised by the dispatcher is the last thing written to the
    display stream. *)
Definition failures_logged (new : trace) : Prop :=
  forall r e, EvSubmit r (SubmitRaise e) ∈ new -> last new = Some (EvWrite e).

(** A base constructor that takes [disable] and [leave] from the keyword
    arguments, with the defaults of tqdm, and puts the bar at position 0. *)
Definition sample_std_init (h : trace) (args : list value)
    (kwargs : gmap string value) : outcome std_fields :=
  Returned (StdFields (default (VBool false) (kwargs !! "disable"))
              (default (VBool true) (kwargs !! "leave")) 0).

(** A backend that is unreachable, a dispatcher that accepts everything and
    a base meter that keeps its attributes. *)
Definition offline : env :=
  Env (fun _ _ => HttpRaise (RequestException 0))
      (fun h _ => SubmitFuture (length h))
      sample_std_init
      (fun _ f => Returned f)
      (fun _ => VNone).

(** A backend that answers every request with the JSON body [body]. *)
Definition answering (body : value) : env :=
  Env (fun _ _ => HttpResponse (Some body))
      (fun h _ => SubmitFuture (length h))
      sample_std_init
      (fun _ f => Returned f)
      (fun _ => VNone).

(** A backend that is unreachable for the first request and answers every
    later one with the JSON body [body]. *)
Definition first_fails_then (body : value) : env :=
  Env (fun h _ => if existsb is_network h then HttpResponse (Some body)
                  else HttpRaise (RequestException 0))
      (fun h _ => SubmitFuture (length h))
      sample_std_init
      (fun _ f => Returned f)
      (fun _ => VNone).

(** The invariant of the dispatcher. *)
Record dispatcher_inv (w : MonoWorker.t) : Prop := DispatcherInv {
  inv_backlog :
    (length (MonoWorker.backlog w) <= MonoWorker.capacity)%nat;
  inv_started :
    forall h, h ∈ MonoWorker.started w ->
      MonoWorker.status_of w h = Some MonoWorker.Running \/
      MonoWorker.status_of w h = Some MonoWorker.Done;
  inv_handles :
    forall h, h ∈ MonoWorker.backlog w ->
      (h < length (MonoWorker.tasks w))%nat;
  inv_pending :
    forall h p, h ∈ MonoWorker.started w ->
      MonoWorker.tasks w !! p = Some MonoWorker.Pending -> (h < p)%nat;
  inv_sorted : StronglySorted lt (MonoWorker.started w)
}.

(** The handlers that the redirection keeps. *)
Definition not_console (l : list Logging.handler) : list Logging.handler :=
  List.filter (fun h => negb (Logging._is_console_logging_handler h)) l.

(** The state of the loop of [logging_redirect_tqdm] after it has treated
    the loggers [seen], started in [m0] on the loggers [all]. *)
Record redirect_inv (all seen : list nat) (m0 m : Logging.heap) : Prop :=
  RedirectInv {
  inv_next : (Logging.next m0 <= Logging.next m)%nat;
  inv_old : forall a, (a < Logging.next m0)%nat ->
      Logging.lists m a = Logging.lists m0 a;
  inv_alloc : forall lg, lg ∈ all ->
      (Logging.handlers m lg < Logging.next m)%nat;
  inv_unseen : forall lg, lg ∉ seen ->
      Logging.handlers m lg = Logging.handlers m0 lg;
  inv_seen : forall lg, lg ∈ seen ->
      exists t, Logging._is_console_logging_handler t = true /\
        Logging.handlers_of m lg
        = not_console (Logging.handlers_of m0 lg) ++ [t]
}.

(** A heap in which logger [n] owns the list object at address [n]; logger 1
    has a console handler and a file handler. *)
Definition sample_heap : Logging.heap :=
  Logging.Heap (fun lg => lg)
    (fun a => if decide (a = 1%nat)
              then [Logging.StreamHandler Logging.Stderr (Some 5%nat);
                    Logging.StreamHandler (Logging.OtherStream 3) None]
              else [])
    10.

(** A body that adds a handler to logger 1 ([addHandler] appends to the
    list the logger refers to) and then raises. *)
Definition sample_body (m : Logging.heap) : outcome unit * Logging.heap :=
  (Raised (RuntimeError 0),
   Logging.Heap (Logging.handlers m)
     (<[Logging.handlers m 1%nat :=
          Logging.handlers_of m 1%nat ++ [Logging.OtherHandler 8]]>
        (Logging.lists m))
     (Logging.next m)).



(** logging.py lines 91-95: the handler that the loop makes for a logger
    whose handlers are [hs]. *)
Definition tqdm_handler_for (tqdm_class : nat) (hs : list Logging.handler)
    : Logging.handler :=
  match Logging._get_first_found_console_logging_handler hs with
  | Some o =>
      Logging.TqdmLoggingHandler tqdm_class
        (default Logging.Stderr (Logging.stream_of o)) (Logging.formatter_of o)
  | None => Logging.new_tqdm_handler tqdm_class
  end.

(** The value of [_last_log_n] after calls of [display] with the counters
    [ns]: the last counter that is not zero. *)
Fixpoint last_counter (ns : list Z) (last : Z) : Z :=
  match ns with
  | [] => last
  | n :: ns' => last_counter ns' (if n =? 0 then last else n)
  end.

(** The number of counters of [ns] that are not zero and differ from the
    last counter before them that was not zero. *)
Fixpoint progress_steps (ns : list Z) (last : Z) : nat :=
  match ns with
  | [] => 0%nat
  | n :: ns' =>
      let step := if (n =? 0) || (n =? last) then 0%nat else 1%nat in
      let last' := if n =? 0 then last else n in
      (step + progress_steps ns' last')%nat
  end.

Definition is_info (ev : logging_tqdm.log_event) : bool :=
  match ev with
  | logging_tqdm.Info _ _ => true
  | logging_tqdm.Debug _ => false
  end.

(** What a call of [emit] raised, if anything. *)
Definition raised_by (c : TqdmLoggingHandler.call)
    : option TqdmLoggingHandler.raised :=
  match c with
  | TqdmLoggingHandler.Format _ (inl _) => None
  | TqdmLoggingHandler.Format _ (inr e) => Some e
  | TqdmLoggingHandler.TqdmWrite _ _ a
  | TqdmLoggingHandler.Flush a
  | TqdmLoggingHandler.HandleError _ a => a
  end.

(** Every request that the events hand to the dispatcher is an edit whose
    content is [t] between back-quotes. *)
Definition edits_carry (t : str) (new : trace) : Prop :=
  Forall (fun ev =>
            match ev with
            | EvSubmit (DiscordPatch _ _ _ c) _
            | EvSubmit (TelegramEditMessageText _ _ _ c) _ => c = quoted t
            | EvSubmit _ _ => False
            | _ => True
            end) new.

(** Only lines written to the display stream. *)
Definition only_logs (new : trace) : Prop :=
  Forall (fun ev => match ev with EvWrite _ => True | _ => False end) new.

(** Which method of the handler a call of [emit] is. *)
Inductive call_kind : Type := KFormat | KWrite | KFlush | KHandleError.

Definition kind (c : TqdmLoggingHandler.call) : call_kind :=
  match c with
  | TqdmLoggingHandler.Format _ _ => KFormat
  | TqdmLoggingHandler.TqdmWrite _ _ _ => KWrite
  | TqdmLoggingHandler.Flush _ => KFlush
  | TqdmLoggingHandler.HandleError _ _ => KHandleError
  end.

(** Each call of the list, made after the calls [h] and those before it,
    carries the answer of the world [W]. *)
Fixpoint answered (W : TqdmLoggingHandler.world)
    (h calls : list TqdmLoggingHandler.call) : Prop :=
  match calls with
  | [] => True
  | c :: rest =>
      match c with
      | TqdmLoggingHandler.Format rec a =>
          a = TqdmLoggingHandler.format_answer W h rec
      | TqdmLoggingHandler.TqdmWrite msg st a =>
          a = TqdmLoggingHandler.write_answer W h msg st
      | TqdmLoggingHandler.Flush a =>
          a = TqdmLoggingHandler.flush_answer W h
      | TqdmLoggingHandler.HandleError rec a =>
          a = TqdmLoggingHandler.handleError_answer W h rec
      end /\ answered W (h ++ [c]) rest
  end.

(** * Properties *)

(** ** Normalisation *)

Section Normalisation.

Lemma all_space_app a b : all_space a -> all_space b -> all_space (a ++ b).
Proof. unfold all_space. rewrite forallb_app. intros -> ->. reflexivity. Qed.

Lemma all_space_reverse a : all_space a -> all_space (reverse a).
Proof.
  unfold all_space. rewrite !forallb_forall. intros H c Hc.
  apply H. rewrite <- list_elem_of_In in *. by rewrite elem_of_reverse in Hc.
Qed.

Lemma lstrip_split s : exists pre, s = pre ++ lstrip s /\ all_space pre.
Proof.
  induction s as [|c s [pre [Heq Hsp]]]; simpl.
  - by exists [].
  - destruct (isspace c) eqn:Hc.
    + exists (c :: pre). split; [simpl; congruence|].
      unfold all_space in *. simpl. by rewrite Hc.
    + by exists [].
Qed.

Lemma lstrip_head s : clean_end (head (lstrip s)).
Proof.
  induction s as [|c s IH]; simpl; [done|].
  destruct (isspace c) eqn:Hc; [done|]. exact Hc.
Qed.

Lemma rstrip_split s : exists post, s = rstrip s ++ post /\ all_space post.
Proof.
  unfold rstrip. destruct (lstrip_split (reverse s)) as [pre [Heq Hsp]].
  exists (reverse pre). split; [|by apply all_space_reverse].
  rewrite <- reverse_app, <- Heq. by rewrite reverse_involutive.
Qed.

Lemma rstrip_last s : clean_end (last (rstrip s)).
Proof. unfold rstrip. rewrite last_reverse. apply lstrip_head. Qed.

Lemma rstrip_head s : clean_end (head s) -> clean_end (head (rstrip s)).
Proof.
  destruct (rstrip_split s) as [post [Heq _]].
  destruct (rstrip s) as [|c r]; [done|].
  rewrite Heq. done.
Qed.

Lemma strip_split s :
  exists pre post, s = pre ++ strip s ++ post /\ all_space pre /\ all_space post.
Proof.
  unfold strip. destruct (lstrip_split s) as [pre [Heq Hpre]].
  destruct (rstrip_split (lstrip s)) as [post [Heq' Hpost]].
  exists pre, post. split; [|done]. by rewrite <- Heq'.
Qed.

Lemma strip_ends s : clean_end (head (strip s)) /\ clean_end (last (strip s)).
Proof.
  unfold strip. split; [apply rstrip_head, lstrip_head|apply rstrip_last].
Qed.

Lemma remove_char_spec old s c :
  c ∈ remove_char old s <-> c ∈ s /\ c <> old.
Proof.
  unfold remove_char. rewrite !list_elem_of_In, List.filter_In.
  rewrite negb_true_iff, N.eqb_neq. done.
Qed.

Lemma strip_subset s c : c ∈ strip s -> c ∈ s.
Proof.
  destruct (strip_split s) as [pre [post [Heq _]]]. intros H.
  rewrite Heq. rewrite !elem_of_app. tauto.
Qed.

Lemma normalize_unfold s :
  normalize s = strip (remove_char CR (or_placeholder s)).
Proof. destruct s as [[|c t]|]; reflexivity. Qed.

End Normalisation.

Section WriteUsesNormalForm.
Variable E : env.

Lemma discord_write_same s dc h :
  DiscordIO.text dc = normalize s ->
  DiscordIO.write E s dc h = (Returned None, dc, h).
Proof.
  intros Ht. unfold DiscordIO.write, bind, get, ret. simpl.
  unfold str_eqb. by rewrite bool_decide_eq_true_2.
Qed.

Lemma telegram_write_same s tg h :
  TelegramIO.text tg = normalize s ->
  TelegramIO.write E s tg h = (Returned None, tg, h).
Proof.
  intros Ht. unfold TelegramIO.write, bind, get, ret. simpl.
  unfold str_eqb. by rewrite bool_decide_eq_true_2.
Qed.

Lemma discord_write_new s dc h v :
  DiscordIO.text dc <> normalize s ->
  DiscordIO._message_id dc = Some v -> is_None v = false ->
  let req := DiscordPatch (DiscordIO.token dc) (DiscordIO.channel_id dc) v
               (quoted (normalize s)) in
  exists r rest,
    DiscordIO.write E s dc h
    = (Returned r, DiscordIO.set_text (normalize s) dc,
       h ++ EvSubmit req (submit_answer E h req) :: rest) /\
    only_logs rest.
Proof.
  intros Ht Hid Hv req. subst req.
  unfold DiscordIO.write, DiscordIO.message_id, try_except_else, bind, get,
    put, ret, submit, tqdm_write, emit. simpl.
  unfold str_eqb. rewrite bool_decide_eq_false_2 by congruence.
  rewrite Hid. simpl. rewrite Hv. simpl.
  destruct (submit_answer E h _) as [e|f]; simpl; rewrite <- ?app_assoc;
    eexists _, _; (split; [reflexivity|]); by repeat constructor.
Qed.

Lemma telegram_write_new s tg h v :
  TelegramIO.text tg <> normalize s ->
  TelegramIO.message_id tg = Some v ->
  let req := TelegramEditMessageText (TelegramIO.token tg)
               (TelegramIO.chat_id tg) v (quoted (normalize s)) in
  exists r rest,
    TelegramIO.write E s tg h
    = (Returned r, TelegramIO.set_text (normalize s) tg,
       h ++ EvSubmit req (submit_answer E h req) :: rest) /\
    only_logs rest.
Proof.
  intros Ht Hid req. subst req.
  unfold TelegramIO.write, TelegramIO.get_message_id, try_except_else, bind,
    get, put, ret, raise, submit, tqdm_write, emit. simpl.
  unfold str_eqb. rewrite bool_decide_eq_false_2 by congruence.
  simpl. rewrite Hid. simpl.
  destruct (submit_answer E h _) as [e|f]; simpl; rewrite <- ?app_assoc;
    eexists _, _; (split; [reflexivity|]); by repeat constructor.
Qed.

Lemma discord_write_carries s dc h :
  exists new,
    snd (DiscordIO.write E s dc h) = h ++ new /\
    edits_carry (normalize s) new.
Proof.
  unfold DiscordIO.write, DiscordIO.message_id, try_except_else, bind, get,
    put, ret, raise, lift, http, submit, tqdm_write, emit, edits_carry.
  simpl.
  repeat (case_match; simplify_eq; simpl in *); rewrite <- ?app_assoc;
    first [ by exists []; rewrite app_nil_r
          | eexists; (split; [reflexivity|]); by repeat constructor ].
Qed.

Lemma telegram_write_carries s tg h :
  exists new,
    snd (TelegramIO.write E s tg h) = h ++ new /\
    edits_carry (normalize s) new.
Proof.
  unfold TelegramIO.write, TelegramIO.get_message_id, try_except_else, bind,
    get, put, ret, raise, lift, submit, tqdm_write, emit, edits_carry.
  simpl.
  repeat (case_match; simplify_eq; simpl in *); rewrite <- ?app_assoc;
    first [ by exists []; rewrite app_nil_r
          | eexists; (split; [reflexivity|]); by repeat constructor ].
Qed.

End WriteUsesNormalForm.

(** C4. [write] normalises its argument before the duplicate test and before
    sending: [None] and the empty string become ["..."], every carriage
    return is removed, and the white space at both ends is trimmed. The
    duplicate test compares the normal form with the recorded text: when
    they are equal, [write] does nothing. When they differ and an
    identifier is recorded, [write] records the normal form and hands to
    the dispatcher the edit whose content is the normal form (between
    back-quotes); no request that [write] hands to the dispatcher, in any
    state of the sink, carries another content. The text the Telegram sink
    records is the normal form; two arguments with one normal form, such
    as [""] and [None], make [write] behave identically on both sinks. *)
Theorem write_normalizes_input (E : env) (s s' : option str)
    (Hsame : normalize s = normalize s') :
  normalize None = py "..." /\ normalize (Some []) = py "..." /\
  (CR ∉ normalize s) /\
  clean_end (head (normalize s)) /\ clean_end (last (normalize s)) /\
  (exists pre post,
     remove_char CR (or_placeholder s) = pre ++ normalize s ++ post /\
     all_space pre /\ all_space post) /\
  (forall c, c ∈ remove_char CR (or_placeholder s) <->
             c ∈ or_placeholder s /\ c <> CR) /\
  (forall tg h,
     TelegramIO.text (snd (fst (TelegramIO.write E s tg h))) = normalize s) /\
  (forall dc h,
     DiscordIO.text dc = normalize s ->
     DiscordIO.write E s dc h = (Returned None, dc, h)) /\
  (forall tg h,
     TelegramIO.text tg = normalize s ->
     TelegramIO.write E s tg h = (Returned None, tg, h)) /\
  (forall dc h v,
     DiscordIO.text dc <> normalize s ->
     DiscordIO._message_id dc = Some v -> is_None v = false ->
     let req := DiscordPatch (DiscordIO.token dc) (DiscordIO.channel_id dc) v
                  (quoted (normalize s)) in
     exists r rest,
       DiscordIO.write E s dc h
       = (Returned r, DiscordIO.set_text (normalize s) dc,
          h ++ EvSubmit req (submit_answer E h req) :: rest) /\
       only_logs rest) /\
  (forall tg h v,
     TelegramIO.text tg <> normalize s ->
     TelegramIO.message_id tg = Some v ->
     let req := TelegramEditMessageText (TelegramIO.token tg)
                  (TelegramIO.chat_id tg) v (quoted (normalize s)) in
     exists r rest,
       TelegramIO.write E s tg h
       = (Returned r, TelegramIO.set_text (normalize s) tg,
          h ++ EvSubmit req (submit_answer E h req) :: rest) /\
       only_logs rest) /\
  (forall dc h,
     exists new, snd (DiscordIO.write E s dc h) = h ++ new /\
                 edits_carry (normalize s) new) /\
  (forall tg h,
     exists new, snd (TelegramIO.write E s tg h) = h ++ new /\
                 edits_carry (normalize s) new) /\
  DiscordIO.write E s = DiscordIO.write E s' /\
  TelegramIO.write E s = TelegramIO.write E s'.
Proof.
  split; [reflexivity|]. split; [reflexivity|].
  split; [rewrite normalize_unfold;
          intros H%strip_subset%remove_char_spec; tauto|].
  split; [rewrite normalize_unfold; apply strip_ends|].
  split; [rewrite normalize_unfold; apply strip_ends|].
  split; [rewrite normalize_unfold; apply strip_split|].
  split; [intros c; apply remove_char_spec|].
  split.
  { intros tg h. unfold TelegramIO.write, bind, get, put, ret. simpl.
    destruct (str_eqb (normalize s) (TelegramIO.text tg)) eqn:Heq; simpl.
    + symmetry. by apply bool_decide_eq_true in Heq.
    + unfold try_except_else, TelegramIO.get_message_id, bind, get, raise,
        ret, submit, tqdm_write, emit. simpl.
      destruct (TelegramIO.message_id tg); simpl; [|done].
      by destruct (submit_answer E h _). }
  split; [intros dc h; apply discord_write_same|].
  split; [intros tg h; apply telegram_write_same|].
  split; [intros dc h v; apply discord_write_new|].
  split; [intros tg h v; apply telegram_write_new|].
  split; [intros dc h; apply discord_write_carries|].
  split; [intros tg h; apply telegram_write_carries|].
  unfold DiscordIO.write, TelegramIO.write. by rewrite Hsame.
Qed.

Lemma write_normalizes_input_witness :
  normalize (Some []) = normalize None /\
  DiscordIO.write (Env (fun _ _ => HttpRaise TypeError)
                     (fun _ _ => SubmitFuture 0%nat)
                     (fun _ _ _ => Raised TypeError)
                     (fun _ f => Returned f) (fun _ => VNone)) (Some [])
  = DiscordIO.write (Env (fun _ _ => HttpRaise TypeError)
                       (fun _ _ => SubmitFuture 0%nat)
                       (fun _ _ _ => Raised TypeError)
                       (fun _ f => Returned f) (fun _ => VNone)) None.
Proof.
  split; [reflexivity|].
  apply (write_normalizes_input _ (Some []) None). reflexivity.
Defined.

(** ** The sinks *)

Section Counting.

Lemma network_calls_app a b :
  network_calls (a ++ b) = (network_calls a + network_calls b)%nat.
Proof. unfold network_calls. by rewrite List.filter_app, length_app. Qed.

Lemma submissions_app a b :
  submissions (a ++ b) = (submissions a + submissions b)%nat.
Proof. unfold submissions. by rewrite List.filter_app, length_app. Qed.

Lemma create_requests_app a b :
  create_requests (a ++ b) = (create_requests a + create_requests b)%nat.
Proof. unfold create_requests. by rewrite List.filter_app, length_app. Qed.

End Counting.

(** Runs a method symbolically: unfolds the monad and splits on every answer
    of the environment and every test of the code. *)
Ltac unfold_methods :=
  unfold DiscordIO.write, DiscordIO.delete, DiscordIO.__init__,
    DiscordIO.message_id, TelegramIO.write, TelegramIO.delete,
    TelegramIO.__init__, TelegramIO.create, TelegramIO.get_message_id,
    tqdm_write, warn, try_except_else, bind, ret, raise, get, put, lift,
    emit, http, submit in *.

Ltac run_method :=
  unfold_methods; simpl in *;
  repeat (case_match; simplify_eq; simpl in *).

Ltac count_events :=
  unfold network_calls, submissions, create_requests;
  rewrite ?List.filter_app, ?length_app; simpl.

(** C1 (as amended). A Telegram sink without a recorded identifier makes no
    network call in [write] or [delete] and raises nothing. A Discord sink
    without a recorded identifier sends the create request again in every
    [write] whose text is new; when that attempt again ends without an
    identifier, [write] submits nothing, makes no other network call and
    returns. *)
Theorem unset_identifier_calls (E : env) (s : option str) (h : trace)
    (tg : TelegramIO.t) (dc : DiscordIO.t)
    (Htg : TelegramIO.message_id tg = None)
    (Hdc : DiscordIO._message_id dc = None)
    (Hfail : create_fails_quietly (http_answer E h (discord_create dc))) :
  (exists tg' new,
     TelegramIO.write E s tg h = (Returned None, tg', h ++ new) /\
     network_calls new = 0%nat /\ TelegramIO.message_id tg' = None) /\
  (exists new,
     TelegramIO.delete E tg h = (Returned None, tg, h ++ new) /\
     network_calls new = 0%nat) /\
  (exists new,
     DiscordIO.write E s dc h = (Returned None, dc, h ++ new) /\
     submissions new = 0%nat /\
     network_calls new =
       (if str_eqb (normalize s) (DiscordIO.text dc) then 0 else 1)%nat /\
     create_requests new = network_calls new).
Proof.
  unfold create_fails_quietly, discord_create in Hfail.
  split; [|split].
  - unfold TelegramIO.write, TelegramIO.get_message_id, try_except_else, bind,
      get, put, raise, tqdm_write, emit, ret. simpl.
    destruct (str_eqb _ _).
    + exists tg, []. by rewrite app_nil_r.
    + rewrite Htg. eexists _, _. split; [reflexivity|]. by split.
  - unfold TelegramIO.delete, TelegramIO.get_message_id, try_except_else, bind,
      get, put, raise, tqdm_write, emit, ret. simpl.
    rewrite Htg. eexists. split; [reflexivity|]. done.
  - unfold DiscordIO.write, DiscordIO.message_id, try_except_else, bind,
      get, put, raise, tqdm_write, emit, ret, http, lift. simpl.
    destruct (str_eqb _ _).
    + exists []. by rewrite app_nil_r.
    + rewrite Hdc.
      destruct (json_of _) as [res|e]; simpl.
      * rewrite Hfail. simpl. eexists. split; [reflexivity|]. done.
      * eexists. rewrite <- app_assoc. split; [reflexivity|]. done.
Qed.

Lemma unset_identifier_calls_witness :
  exists new,
    DiscordIO.write offline (Some (py "10%"))
      (DiscordIO.Build VNone VNone (py "DiscordIO") None) []
    = (Returned None, DiscordIO.Build VNone VNone (py "DiscordIO") None,
       [] ++ new) /\
    submissions new = 0%nat /\
    network_calls new = 1%nat /\ create_requests new = network_calls new.
Proof.
  apply (unset_identifier_calls offline (Some (py "10%")) []
           (TelegramIO.Build VNone VNone (py "TelegramIO") None)
           (DiscordIO.Build VNone VNone (py "DiscordIO") None));
    reflexivity.
Defined.

(** C1 as stated fails on the Discord sink: after a failed creation, [write]
    sends a create request and [delete] sends one and submits a deletion. *)
Lemma unset_identifier_calls_counterexample :
  exists dc h,
    DiscordIO.__init__ offline (VStr (py "token")) (VStr (py "42")) []
    = (Returned dc, h) /\
    DiscordIO._message_id dc = None /\
    network_calls (snd (DiscordIO.write offline (Some (py "10%")) dc h))
    = S (network_calls h) /\
    network_calls (snd (DiscordIO.delete offline dc h))
    = S (S (network_calls h)).
Proof. eexists _, _. split; [reflexivity|]. by vm_compute. Qed.

Lemma str_eqb_refl s : str_eqb s s = true.
Proof. unfold str_eqb. by apply bool_decide_eq_true_2. Qed.

(** C2 (as amended). A recorded identifier never changes, and while one is
    recorded no [write] or [delete] sends a create request. Each constructor
    sends exactly one. The Telegram sink never sends another; the Discord
    sink sends one more in every [delete], and in every [write] with a new
    text, that finds no identifier recorded. *)
Theorem identifier_lifetime (E : env) (s : option str) (h : trace)
    (dc : DiscordIO.t) (tg : TelegramIO.t) (v : value)
    (Hrec : DiscordIO._message_id dc = Some v) :
  (let '(_, dc', h') := DiscordIO.write E s dc h in
   DiscordIO._message_id dc' = Some v /\
   create_requests h' = create_requests h) /\
  (let '(_, dc', h') := DiscordIO.delete E dc h in
   DiscordIO._message_id dc' = Some v /\
   create_requests h' = create_requests h) /\
  (let '(_, tg', h') := TelegramIO.write E s tg h in
   TelegramIO.message_id tg' = TelegramIO.message_id tg /\
   create_requests h' = create_requests h) /\
  (let '(_, tg', h') := TelegramIO.delete E tg h in
   TelegramIO.message_id tg' = TelegramIO.message_id tg /\
   create_requests h' = create_requests h) /\
  (forall token chat_id,
     create_requests (snd (TelegramIO.__init__ E token chat_id h))
     = S (create_requests h)) /\
  (forall token channel_id,
     create_requests (snd (DiscordIO.__init__ E token channel_id h))
     = S (create_requests h)) /\
  (forall dc0, DiscordIO._message_id dc0 = None ->
     create_requests (snd (DiscordIO.write E s dc0 h))
     = (if str_eqb (normalize s) (DiscordIO.text dc0)
        then create_requests h else S (create_requests h)) /\
     create_requests (snd (DiscordIO.delete E dc0 h))
     = S (create_requests h)).
Proof.
  repeat apply conj.
  - destruct (DiscordIO.write E s dc h) as [[r dc'] h'] eqn:Hw.
    run_method; (split; [done|]); count_events; lia.
  - destruct (DiscordIO.delete E dc h) as [[r dc'] h'] eqn:Hw.
    run_method; (split; [done|]); count_events; lia.
  - destruct (TelegramIO.write E s tg h) as [[r tg'] h'] eqn:Hw.
    run_method; (split; [done|]); count_events; lia.
  - destruct (TelegramIO.delete E tg h) as [[r tg'] h'] eqn:Hw.
    run_method; (split; [done|]); count_events; lia.
  - intros. run_method; count_events; lia.
  - intros. run_method; count_events; lia.
  - intros dc0 Hnone. split; run_method; count_events; lia.
Qed.

Lemma identifier_lifetime_witness :
  let dc := DiscordIO.Build VNone VNone (py "DiscordIO") (Some (VStr (py "7"))) in
  let '(_, dc', h') := DiscordIO.write offline (Some (py "10%")) dc [] in
  DiscordIO._message_id dc' = Some (VStr (py "7")) /\
  create_requests h' = create_requests [].
Proof.
  apply (identifier_lifetime offline (Some (py "10%")) []
           (DiscordIO.Build VNone VNone (py "DiscordIO") (Some (VStr (py "7"))))
           (TelegramIO.Build VNone VNone (py "TelegramIO") None)
           (VStr (py "7"))).
  reflexivity.
Defined.

(** C2 as stated fails on the Discord sink: the constructor's request fails,
    a later [write] sends the create request again, and this time the
    identifier is recorded. *)
Lemma identifier_lifetime_counterexample :
  let E := first_fails_then (VDict [(py "id", VStr (py "7"))]) in
  exists dc h,
    DiscordIO.__init__ E (VStr (py "token")) (VStr (py "42")) []
    = (Returned dc, h) /\
    DiscordIO._message_id dc = None /\
    create_requests h = 1%nat /\
    let '(_, dc', h') := DiscordIO.write E (Some (py "10%")) dc h in
    create_requests h' = 2%nat /\
    DiscordIO._message_id dc' = Some (VStr (py "7")).
Proof. eexists _, _. split; [reflexivity|]. by vm_compute. Qed.

(** C3 (as amended). On a sink with an established identifier, two calls of
    [write] in a row whose arguments have one normal form make at most one
    submission: the second call returns at once, with no call and no change
    of state. The first call submits exactly once when its text differs from
    the recorded one and the dispatcher accepts the task, and not at all
    otherwise. *)
Theorem duplicate_write_skipped (E : env) (s s' : option str) (h : trace)
    (dc : DiscordIO.t) (tg : TelegramIO.t) (v w : value)
    (Hsame : normalize s = normalize s')
    (Hdc : DiscordIO._message_id dc = Some v) (Hv : is_None v = false)
    (Htg : TelegramIO.message_id tg = Some w) :
  (exists r dc1 new,
     DiscordIO.write E s dc h = (r, dc1, h ++ new) /\
     DiscordIO.write E s' dc1 (h ++ new) = (Returned None, dc1, h ++ new) /\
     submissions new =
       (if str_eqb (normalize s) (DiscordIO.text dc) then 0
        else match submit_answer E h
                     (DiscordPatch (DiscordIO.token dc) (DiscordIO.channel_id dc)
                        v (quoted (normalize s))) with
             | SubmitFuture _ => 1
             | SubmitRaise _ => 0
             end)%nat) /\
  (exists r tg1 new,
     TelegramIO.write E s tg h = (r, tg1, h ++ new) /\
     TelegramIO.write E s' tg1 (h ++ new) = (Returned None, tg1, h ++ new) /\
     submissions new =
       (if str_eqb (normalize s) (TelegramIO.text tg) then 0
        else match submit_answer E h
                     (TelegramEditMessageText (TelegramIO.token tg)
                        (TelegramIO.chat_id tg) w (quoted (normalize s))) with
             | SubmitFuture _ => 1
             | SubmitRaise _ => 0
             end)%nat).
Proof.
  split.
  - unfold DiscordIO.write at 1. unfold_methods. simpl.
    destruct (str_eqb (normalize s) (DiscordIO.text dc)) eqn:Heq;
      simpl; rewrite ?Hdc; simpl; rewrite ?Hv; simpl.
    + eexists _, dc, []. rewrite app_nil_r. split; [done|]. split; [|done].
      unfold DiscordIO.write. unfold_methods. simpl.
      by rewrite <- Hsame, Heq.
    + destruct (submit_answer E h _) as [e|f] eqn:Hsub.
      * eexists _, _, _. rewrite <- app_assoc. split; [reflexivity|].
        split; [|done].
        unfold DiscordIO.write. unfold_methods. simpl.
        by rewrite <- Hsame, str_eqb_refl.
      * eexists _, _, _. split; [reflexivity|]. split; [|done].
        unfold DiscordIO.write. unfold_methods. simpl.
        by rewrite <- Hsame, str_eqb_refl.
  - unfold TelegramIO.write at 1. unfold_methods. simpl.
    destruct (str_eqb (normalize s) (TelegramIO.text tg)) eqn:Heq;
      simpl; rewrite ?Htg; simpl.
    + eexists _, tg, []. rewrite app_nil_r. split; [done|]. split; [|done].
      unfold TelegramIO.write. unfold_methods. simpl.
      by rewrite <- Hsame, Heq.
    + destruct (submit_answer E h _) as [e|f] eqn:Hsub.
      * eexists _, _, _. rewrite <- app_assoc. split; [reflexivity|].
        split; [|done].
        unfold TelegramIO.write. unfold_methods. simpl.
        by rewrite <- Hsame, str_eqb_refl.
      * eexists _, _, _. split; [reflexivity|]. split; [|done].
        unfold TelegramIO.write. unfold_methods. simpl.
        by rewrite <- Hsame, str_eqb_refl.
Qed.

Lemma duplicate_write_skipped_witness :
  let dc := DiscordIO.Build VNone VNone (py "DiscordIO") (Some (VStr (py "7"))) in
  exists r dc1 new,
    DiscordIO.write offline (Some (py "10%")) dc [] = (r, dc1, [] ++ new) /\
    DiscordIO.write offline (Some (py " 10%")) dc1 ([] ++ new)
    = (Returned None, dc1, [] ++ new) /\
    submissions new = 1%nat.
Proof.
  apply (duplicate_write_skipped offline (Some (py "10%")) (Some (py " 10%")) []
           (DiscordIO.Build VNone VNone (py "DiscordIO") (Some (VStr (py "7"))))
           (TelegramIO.Build VNone VNone (py "TelegramIO") (Some (VInt 7)))
           (VStr (py "7")) (VInt 7));
    reflexivity.
Defined.

(** C3 as stated fails when the text is the one already recorded: on a fresh
    sink with an established identifier, writing the class name twice makes
    no submission at all. *)
Lemma duplicate_write_skipped_counterexample :
  let E := answering (VDict [(py "id", VStr (py "7"))]) in
  exists dc h,
    DiscordIO.__init__ E (VStr (py "token")) (VStr (py "42")) []
    = (Returned dc, h) /\
    DiscordIO._message_id dc = Some (VStr (py "7")) /\
    let '(_, dc1, h1) := DiscordIO.write E (Some (py "DiscordIO")) dc h in
    let '(_, _, h2) := DiscordIO.write E (Some (py "DiscordIO")) dc1 h1 in
    submissions h2 = submissions h /\ submissions h2 <> S (submissions h).
Proof. eexists _, _. split; [reflexivity|]. by vm_compute. Qed.

Lemma failures_logged_nil : failures_logged [].
Proof. intros r e H. by apply elem_of_nil in H. Qed.

Ltac solve_logged :=
  first
    [ apply failures_logged_nil
    | let Hin := fresh "Hin" in
      intros ?r ?e Hin;
      repeat (apply elem_of_cons in Hin as [Hin|Hin];
              [simplify_eq; try reflexivity; congruence|]);
      by apply elem_of_nil in Hin ].

(** Closes a goal [exists r self' new, (o, self, h') = (Returned r, self', h ++ new)
    /\ failures_logged new] once the method has been run. *)
Ltac close_call :=
  rewrite <- ?app_assoc;
  first
    [ eexists _, _, []; rewrite app_nil_r; split; [reflexivity|solve_logged]
    | eexists _, _, _; split; [reflexivity|solve_logged] ].

(** How far the containment of failures goes. [delete] of either sink and
    [write] of the Telegram sink always return: an exception raised while
    the request is built or submitted is caught and written to the display
    stream. The same holds for [write] of the Discord sink when an
    identifier is recorded, or when the create request it repeats is
    answered by an exception, by a body that is not JSON, or by a JSON
    object. *)
Lemma sink_calls_return (E : env) (s : option str) (h : trace)
    (dc : DiscordIO.t) (tg : TelegramIO.t)
    (Hdc : DiscordIO._message_id dc <> None \/
           answers_object (http_answer E h (discord_create dc))) :
  (exists r dc' new,
     DiscordIO.write E s dc h = (Returned r, dc', h ++ new) /\
     failures_logged new) /\
  (exists r dc' new,
     DiscordIO.delete E dc h = (Returned r, dc', h ++ new) /\
     failures_logged new) /\
  (exists r tg' new,
     TelegramIO.write E s tg h = (Returned r, tg', h ++ new) /\
     failures_logged new) /\
  (exists r tg' new,
     TelegramIO.delete E tg h = (Returned r, tg', h ++ new) /\
     failures_logged new) /\
  match TelegramIO.message_id tg with
  | None =>
      TelegramIO.delete E tg h
      = (Returned None, tg, h ++ [EvWrite (AttributeError "message_id")])
  | Some _ => True
  end.
Proof.
  unfold answers_object, discord_create in Hdc.
  repeat apply conj.
  - destruct (DiscordIO.write E s dc h) as [[r dc'] h'] eqn:Hw.
    run_method; try close_call.
    all: destruct Hdc as [Hdc|Hdc]; [congruence|].
    all: repeat match goal with
           | H : json_of _ = _ |- _ => rewrite H in Hdc; clear H
           end.
    all: simpl in *; repeat case_match; simplify_eq; done.
  - destruct (DiscordIO.delete E dc h) as [[r dc'] h'] eqn:Hw.
    run_method; close_call.
  - destruct (TelegramIO.write E s tg h) as [[r tg'] h'] eqn:Hw.
    run_method; close_call.
  - destruct (TelegramIO.delete E tg h) as [[r tg'] h'] eqn:Hw.
    run_method; close_call.
  - destruct (TelegramIO.message_id tg) eqn:Hm; [done|].
    unfold_methods. simpl. by rewrite Hm.
Qed.

(** C7. The Discord sink lets an exception escape from [write]: with no
    identifier recorded, [write] reads the property [message_id] outside its
    [try]; the property repeats the create request, and when the body of the
    answer is the JSON value [null] the test ["id" in res], which the
    property makes outside its own [try], raises [TypeError]. [delete]
    reads the property inside its [try] and logs the same exception. *)
Theorem discord_write_raises :
  let E := first_fails_then VNone in
  exists dc h,
    DiscordIO.__init__ E (VStr (py "token")) (VStr (py "42")) []
    = (Returned dc, h) /\
    fst (fst (DiscordIO.write E (Some (py "10%")) dc h)) = Raised TypeError /\
    fst (fst (DiscordIO.delete E dc h)) = Returned None /\
    last (snd (DiscordIO.delete E dc h)) = Some (EvWrite TypeError).
Proof. eexists _, _. split; [reflexivity|]. by vm_compute. Qed.

(** C9. When the answer to the create request of the Telegram sink is a
    rate-limit answer (error code 429 and, as in every error answer, no
    [result]), the constructor warns and then raises [KeyError]: no sink
    exists afterwards, and the constructor of the meter raises as well. *)
Theorem telegram_rate_limit_raises (E : env) (token chat_id : value)
    (h : trace) (kv : list (str * value))
    (Hans : forall t, http_answer E t
              (TelegramSendMessage token chat_id (quoted (py "TelegramIO")))
            = HttpResponse (Some (VDict kv)))
    (Hcode : dict_get kv (py "error_code") = Some (VInt 429))
    (Hres : dict_get kv (py "result") = None) :
  TelegramIO.__init__ E token chat_id h
  = (Raised (KeyError "result"),
     h ++ [EvNewPool; EvNewSession;
           EvHttp (TelegramSendMessage token chat_id (quoted (py "TelegramIO")))
             (HttpResponse (Some (VDict kv)));
           EvWarn too_many_requests]) /\
  fst (tqdm_telegram.__init__ E []
         {[ "token" := token; "chat_id" := chat_id ]} h)
  = Raised (KeyError "result").
Proof.
  assert (Hinit : TelegramIO.__init__ E token chat_id h
    = (Raised (KeyError "result"),
       h ++ [EvNewPool; EvNewSession;
             EvHttp (TelegramSendMessage token chat_id (quoted (py "TelegramIO")))
               (HttpResponse (Some (VDict kv)));
             EvWarn too_many_requests])).
  { unfold_methods. simpl. rewrite Hans. simpl.
    rewrite Hcode. simpl. rewrite Hres. simpl.
    by rewrite <- !app_assoc. }
  split; [exact Hinit|].
  unfold tqdm_telegram.__init__.
  replace (truthy _) with false by reflexivity. simpl.
  replace (default (getenv E "TQDM_TELEGRAM_TOKEN") _) with token
    by reflexivity.
  replace (default (getenv E "TQDM_TELEGRAM_CHAT_ID") _) with chat_id
    by reflexivity.
  by rewrite Hinit.
Qed.

Lemma telegram_rate_limit_raises_witness :
  fst (TelegramIO.__init__
         (answering (VDict [(py "ok", VBool false);
                            (py "error_code", VInt 429);
                            (py "description",
                             VStr (py "Too Many Requests: retry after 5"))]))
         (VStr (py "token")) (VInt 42) [])
  = Raised (KeyError "result").
Proof.
  pose proof (telegram_rate_limit_raises
    (answering (VDict [(py "ok", VBool false);
                       (py "error_code", VInt 429);
                       (py "description",
                        VStr (py "Too Many Requests: retry after 5"))]))
    (VStr (py "token")) (VInt 42) [] _
    (fun _ => eq_refl) eq_refl eq_refl) as [H _].
  by rewrite H.
Defined.

(** The Telegram sink on three backends: one that answers with a message,
    one that is unreachable, and one whose answer has no [result]. *)
Example telegram_construction :
  let ok := VDict [(py "ok", VBool true);
                   (py "result", VDict [(py "message_id", VInt 5)])] in
  (exists h, TelegramIO.__init__ (answering ok) (VStr (py "token")) (VInt 42) []
             = (Returned (TelegramIO.Build (VStr (py "token")) (VInt 42)
                            (py "TelegramIO") (Some (VInt 5))), h)) /\
  (exists h, TelegramIO.__init__ offline (VStr (py "token")) (VInt 42) []
             = (Returned (TelegramIO.Build (VStr (py "token")) (VInt 42)
                            (py "TelegramIO") None), h) /\
             last h = Some (EvWrite (RequestException 0))) /\
  fst (TelegramIO.__init__ (answering (VDict [(py "ok", VBool false)]))
         (VStr (py "token")) (VInt 42) [])
  = Raised (KeyError "result").
Proof. split; [by eexists|]. split; [by eexists|]. reflexivity. Qed.

(** Normalisation on concrete inputs. *)
Example normalize_samples :
  normalize (Some (py "  10%|#####     | 1/10  ")) = py "10%|#####     | 1/10" /\
  normalize (Some [13; 49; 48; 37; 13; 10]%N) = py "10%" /\
  normalize (Some (py "   ")) = [] /\
  normalize (Some (py "...")) = normalize None.
Proof. by vm_compute. Qed.

(** ** The hooks of the meter *)

Lemma discord_delete_leaves_trace E io h :
  exists r io' new,
    DiscordIO.delete E io h = (Returned r, io', h ++ new) /\ new <> [].
Proof.
  destruct (DiscordIO.delete E io h) as [[r io'] h'] eqn:Hd.
  run_method; rewrite <- ?app_assoc; by eexists _, _, _.
Qed.

Lemma telegram_delete_leaves_trace E io h :
  exists r io' new,
    TelegramIO.delete E io h = (Returned r, io', h ++ new) /\ new <> [].
Proof.
  destruct (TelegramIO.delete E io h) as [[r io'] h'] eqn:Hd.
  run_method; rewrite <- ?app_assoc; by eexists _, _, _.
Qed.

Lemma leave_policy_spec f :
  leave_policy f = true <->
  truthy (leave f) = true \/ (leave f = VNone /\ pos f = 0).
Proof.
  unfold leave_policy. rewrite orb_true_iff, andb_true_iff, Z.eqb_eq.
  destruct (leave f); simpl; intuition congruence.
Qed.

(** C5. [close] does nothing on a disabled meter. Otherwise it first runs
    the base [close]; then, on the attributes the base class leaves, it
    calls [delete] of the sink exactly when the bar is not to be left, that
    is, unless [leave] is true, or [leave] is [None] and [pos] is 0. A call
    of [delete] always shows in the trace. *)
Theorem close_deletes_unless_left (E : env) (h : trace)
    (dio : DiscordIO.t) (tgio : TelegramIO.t) (f : std_fields) :
  let a := std_close_answer E h f in
  let h1 := h ++ [EvStdClose a] in
  let md := tqdm_discord.Build (Some dio) f in
  let mt := tqdm_telegram.Build (Some tgio) f in
  (if truthy (disable f) then
     tqdm_discord.close E md h = (Returned tt, md, h) /\
     tqdm_telegram.close E mt h = (Returned tt, mt, h)
   else
     match a with
     | Raised e =>
         tqdm_discord.close E md h = (Raised e, md, h1) /\
         tqdm_telegram.close E mt h = (Raised e, mt, h1)
     | Returned f' =>
         if leave_policy f' then
           tqdm_discord.close E md h
           = (Returned tt, tqdm_discord.Build (Some dio) f', h1) /\
           tqdm_telegram.close E mt h
           = (Returned tt, tqdm_telegram.Build (Some tgio) f', h1)
         else
           (exists r dio' new,
              DiscordIO.delete E dio h1 = (Returned r, dio', h1 ++ new) /\
              new <> [] /\
              tqdm_discord.close E md h
              = (Returned tt, tqdm_discord.Build (Some dio') f', h1 ++ new)) /\
           (exists r tgio' new,
              TelegramIO.delete E tgio h1 = (Returned r, tgio', h1 ++ new) /\
              new <> [] /\
              tqdm_telegram.close E mt h
              = (Returned tt, tqdm_telegram.Build (Some tgio') f', h1 ++ new))
     end) /\
  (forall f', leave_policy f' = true <->
              truthy (leave f') = true \/ (leave f' = VNone /\ pos f' = 0)).
Proof.
  intros a h1 md mt. subst a h1 md mt. split; [|apply leave_policy_spec].
  unfold tqdm_discord.close, tqdm_telegram.close, std_close, call_attr,
    bind, get, ret. simpl.
  destruct (truthy (disable f)); [done|]. cbn.
  destruct (std_close_answer E h f) as [f'|e]; simpl; [|done].
  destruct (leave_policy f'); simpl; [done|]. split.
  - destruct (discord_delete_leaves_trace E dio (h ++ [EvStdClose (Returned f')]))
      as (r & dio' & new & Hd & Hn).
    exists r, dio', new. rewrite Hd. done.
  - destruct (telegram_delete_leaves_trace E tgio (h ++ [EvStdClose (Returned f')]))
      as (r & tgio' & new & Hd & Hn).
    exists r, tgio', new. rewrite Hd. done.
Qed.




(** The scenario of the spec: a sink is created, ["10%"] is written twice
    and ["20%"] once, and the meter is closed with [leave=False]: one
    submission after the first and the second [write], two after the third,
    and a third one, the deletion, at [close]. *)
Example end_to_end_scenario :
  let E := answering (VDict [(py "id", VStr (py "7"))]) in
  let w s := call_attr "dio" tqdm_discord.dio tqdm_discord.set_dio
               (DiscordIO.write E (Some (py s))) in
  match tqdm_discord.__init__ E [] {[ "leave" := VBool false ]} [] with
  | (Returned m, h0) =>
      let '(_, m1, h1) := w "10%" m h0 in
      let '(_, m2, h2) := w "10%" m1 h1 in
      let '(_, m3, h3) := w "20%" m2 h2 in
      let '(_, _, h4) := tqdm_discord.close E m3 h3 in
      List.map submissions [h0; h1; h2; h3; h4] = [0; 1; 1; 2; 3]%nat /\
      last h4 = Some (EvSubmit (DiscordDelete VNone VNone (VStr (py "7")))
                        (SubmitFuture 6))
  | (Raised _, _) => False
  end.
Proof. by vm_compute. Qed.

(** ** The dispatcher *)

Section Dispatcher.
Import MonoWorker.

Lemma cancel_lookup h ts p :
  cancel h ts !! p =
    if decide (h = p /\ ts !! p = Some Pending) then Some Cancelled
    else ts !! p.
Proof.
  unfold cancel. destruct (ts !! h) as [[]|] eqn:Hh;
    case_decide as Hd; try done; try (destruct Hd; congruence).
  - destruct Hd as [-> _]. apply list_lookup_insert_eq.
    by apply lookup_lt_Some in Hh.
  - apply list_lookup_insert_ne. intros ->. by apply Hd.
Qed.

Lemma first_pending_spec ts h :
  first_pending ts = Some h ->
  ts !! h = Some Pending /\
  forall p, ts !! p = Some Pending -> (h <= p)%nat.
Proof.
  revert h. induction ts as [|s ts IH]; intros h; simpl; [done|].
  destruct s; try (intros [= <-]; split; [done|intros; lia]).
  all: destruct (first_pending ts) as [h'|]; simpl; intros [= <-].
  all: destruct (IH h' eq_refl) as [Hl Hmin]; split; [done|].
  all: intros [|p] Hp; simpl in Hp; [done|apply Hmin in Hp; lia].
Qed.

Lemma submit_tasks w p :
  tasks (snd (submit w)) !! p = Some Pending ->
  (tasks w ++ [Pending]) !! p = Some Pending.
Proof.
  unfold submit. case_decide; [|done].
  destruct (backlog w ++ _) as [|oldest rest]; simpl; [done|].
  rewrite cancel_lookup. by case_decide.
Qed.

Lemma submit_keeps w p s :
  tasks w !! p = Some s -> s <> Pending ->
  tasks (snd (submit w)) !! p = Some s.
Proof.
  intros Hp Hs.
  assert ((tasks w ++ [Pending]) !! p = Some s) as Hp'
    by by apply lookup_app_l_Some.
  unfold submit. case_decide; [|done].
  destruct (backlog w ++ _) as [|oldest rest]; simpl; [done|].
  rewrite cancel_lookup. case_decide as Hd; [|done].
  destruct Hd as [_ Hd]. pose proof (eq_trans (eq_sym Hp') Hd). by simplify_eq.
Qed.

Lemma submit_started w : started (snd (submit w)) = started w.
Proof. unfold submit. repeat case_match; done. Qed.

Lemma submit_backlog w :
  backlog (snd (submit w)) =
    match evicted_by_submit w with
    | Some _ => tail (backlog w) ++ [length (tasks w)]
    | None => backlog w ++ [length (tasks w)]
    end.
Proof.
  unfold submit, evicted_by_submit. case_decide as Hd; [|done].
  destruct (backlog w) as [|o r]; simpl in *; [|done].
  unfold capacity in Hd. lia.
Qed.

Lemma inv_init : dispatcher_inv __init__.
Proof.
  split; simpl; try (intros ? ? H; by apply elem_of_nil in H);
    try (intros ? H; by apply elem_of_nil in H).
  - unfold capacity. lia.
  - constructor.
Qed.

Lemma submit_tasks_length w :
  length (tasks (snd (submit w))) = S (length (tasks w)).
Proof.
  unfold submit. case_decide.
  - destruct (backlog w ++ _) as [|o r]; simpl;
      [|unfold cancel; repeat case_match; rewrite ?length_insert];
      rewrite length_app; simpl; lia.
  - simpl. rewrite length_app. simpl. lia.
Qed.

Lemma inv_submit w : dispatcher_inv w -> dispatcher_inv (snd (submit w)).
Proof.
  intros [Hb Hs Hh Hp Hso]. split.
  - rewrite submit_backlog. unfold evicted_by_submit.
    case_decide as Hd.
    + destruct (backlog w) as [|o r]; simpl in *;
        rewrite ?length_app in *; simpl in *; unfold capacity in *; lia.
    + rewrite length_app in *. simpl in *. lia.
  - intros h. rewrite submit_started. intros Hin. unfold status_of.
    destruct (Hs h Hin) as [H|H]; [left|right];
      by apply submit_keeps.
  - intros h Hin. rewrite submit_tasks_length.
    rewrite submit_backlog in Hin.
    assert (h ∈ backlog w ++ [length (tasks w)]) as Hin'.
    { destruct (evicted_by_submit w); [|done].
      destruct (backlog w) as [|o r]; simpl in *; [done|].
      by apply elem_of_cons; right. }
    apply elem_of_app in Hin' as [Hin'|Hx%list_elem_of_singleton]; [|lia].
    apply Hh in Hin'. lia.
  - intros h p. rewrite submit_started. intros Hin Hpend%submit_tasks.
    apply lookup_app_Some in Hpend as [Hpend|[Hlen _]]; [by eapply Hp|].
    assert (h < length (tasks w))%nat; [|lia].
    destruct (Hs h Hin) as [H|H]; by apply lookup_lt_Some in H.
  - by rewrite submit_started.
Qed.

Lemma inv_start w : dispatcher_inv w -> dispatcher_inv (start w).
Proof.
  intros [Hb Hs Hbl Hp Hso]. unfold start.
  destruct (busy w); [done|].
  destruct (first_pending (tasks w)) as [h|] eqn:Hf; [|done].
  apply first_pending_spec in Hf as [Hh Hmin]. split; simpl.
  - done.
  - intros x [Hx|Hx%list_elem_of_singleton]%elem_of_app; unfold status_of; simpl.
    + assert (x <> h).
      { intros ->. destruct (Hs h Hx) as [H|H];
          pose proof (eq_trans (eq_sym H) Hh); by simplify_eq. }
      rewrite list_lookup_insert_ne by done. by apply Hs.
    + subst x. left. apply list_lookup_insert_eq. by apply lookup_lt_Some in Hh.
  - intros x Hx. rewrite length_insert. by apply Hbl.
  - intros x p Hx Hpend.
    assert (p <> h) as Hne.
    { intros ->. rewrite list_lookup_insert_eq in Hpend; [done|].
      by apply lookup_lt_Some in Hh. }
    rewrite list_lookup_insert_ne in Hpend by done.
    apply elem_of_app in Hx as [Hx|Hx%list_elem_of_singleton].
    + by eapply Hp.
    + subst x. apply Hmin in Hpend. lia.
  - apply StronglySorted_app. split; [|split; [done|repeat constructor]].
    intros x1 x2 Hx1 Hx2%list_elem_of_singleton. subst x2. by eapply Hp.
Qed.

Lemma finish_lookup w p :
  tasks (finish w) !! p =
    (fun s => match s with Running => Done | _ => s end) <$> tasks w !! p.
Proof. apply list_lookup_fmap. Qed.

Lemma inv_finish w : dispatcher_inv w -> dispatcher_inv (finish w).
Proof.
  intros [Hb Hs Hbl Hp Hso]. split; [done| | | |done].
  - intros h Hin. unfold status_of in *. rewrite finish_lookup.
    destruct (Hs h Hin) as [H|H]; rewrite H; by right.
  - intros h Hin. unfold finish. simpl. rewrite length_fmap. by apply Hbl.
  - intros h p Hin. rewrite finish_lookup.
    destruct (tasks w !! p) as [[]|] eqn:Hl; simpl; try done.
    intros _. by eapply Hp.
Qed.

Lemma inv_step w a : dispatcher_inv w -> dispatcher_inv (step w a).
Proof. destruct a; [apply inv_submit|apply inv_start|apply inv_finish]. Qed.

Lemma inv_run acts w : dispatcher_inv w -> dispatcher_inv (run w acts).
Proof.
  revert w. induction acts as [|a acts IH]; intros w Hw; [done|].
  simpl. by apply IH, inv_step.
Qed.

(** A cancelled task stays cancelled. *)
Lemma cancelled_step w a h :
  status_of w h = Some Cancelled -> status_of (step w a) h = Some Cancelled.
Proof.
  unfold status_of. intros Hc. destruct a.
  - by apply submit_keeps.
  - simpl. unfold start. destruct (busy w); [done|].
    destruct (first_pending (tasks w)) as [p|] eqn:Hf; [|done]. simpl.
    apply first_pending_spec in Hf as [Hp _].
    rewrite list_lookup_insert_ne; [done|]. intros ->. congruence.
  - change (step w Finish) with (finish w). by rewrite finish_lookup, Hc.
Qed.

Lemma cancelled_run acts w h :
  status_of w h = Some Cancelled -> status_of (run w acts) h = Some Cancelled.
Proof.
  revert w. induction acts as [|a acts IH]; intros w Hw; [done|].
  simpl. by apply IH, cancelled_step.
Qed.

Lemma submit_evicts w h s :
  evicted_by_submit w = Some h ->
  status_of w h = Some s ->
  status_of (snd (submit w)) h =
    Some (match s with Pending => Cancelled | _ => s end).
Proof.
  unfold evicted_by_submit, submit, status_of. case_decide as Hd; [|done].
  destruct (backlog w) as [|o r]; simpl; [done|]. intros [= ->] Hl.
  rewrite cancel_lookup, (lookup_app_l_Some _ _ _ _ Hl).
  case_decide as Hc; destruct s; try done; destruct Hc; done.
Qed.

Lemma started_not_status w h s :
  dispatcher_inv w -> status_of w h = Some s ->
  s <> Running -> s <> Done -> h ∉ started w.
Proof.
  intros Hinv Hs Hr Hd Hin.
  destruct (inv_started w Hinv h Hin) as [H|H];
    pose proof (eq_trans (eq_sym H) Hs); by simplify_eq.
Qed.

(** C8. In every state that the caller and the worker can reach, the
    backlog holds at most two handles and the tasks were started in the
    order of their submission. A submission that would make the backlog
    longer pops the oldest handle; when that task has not started it is
    cancelled, stays cancelled and is never started, and when it is
    running or done it is left as it is. *)
Theorem backlog_bounded_fifo (acts : list action) :
  let w := run __init__ acts in
  (length (backlog w) <= capacity)%nat /\
  StronglySorted lt (started w) /\
  match evicted_by_submit w with
  | None => backlog (step w Submit) = backlog w ++ [length (tasks w)]
  | Some h =>
      head (backlog w) = Some h /\
      backlog (step w Submit) = tail (backlog w) ++ [length (tasks w)] /\
      match status_of w h with
      | Some Pending =>
          (h ∉ started w) /\
          forall acts',
            let w' := run (step w Submit) acts' in
            status_of w' h = Some Cancelled /\ h ∉ started w'
      | st => status_of (step w Submit) h = st
      end
  end.
Proof.
  intros w. assert (Hinv : dispatcher_inv w) by apply inv_run, inv_init.
  split; [apply Hinv|]. split; [apply Hinv|].
  change (step w Submit) with (snd (submit w)). rewrite submit_backlog.
  destruct (evicted_by_submit w) as [h|] eqn:Hev; [|done].
  assert (head (backlog w) = Some h) as Hhead.
  { unfold evicted_by_submit in Hev. by case_decide. }
  split; [done|]. split; [done|].
  assert (h ∈ backlog w) as Hin by by apply head_Some_elem_of.
  apply (inv_handles w Hinv), lookup_lt_is_Some_2 in Hin as [s Hs].
  change (tasks w !! h) with (status_of w h) in Hs. rewrite Hs.
  pose proof (submit_evicts w h s Hev Hs) as Hsub.
  destruct s; try done.
  split; [by eapply started_not_status|].
  intros acts' w'.
  assert (status_of w' h = Some Cancelled) as Hc by by apply cancelled_run.
  split; [done|].
  eapply started_not_status; [|exact Hc|done|done].
  apply inv_run. by apply (inv_step w Submit).
Qed.

(** The scenario of the spec: A, B and C are submitted before the worker
    starts anything; A is cancelled, the backlog holds B and C, and the
    worker runs B and then C. *)
Example three_submissions :
  let w := run __init__ [Submit; Submit; Submit; Start; Finish; Start; Finish] in
  tasks w = [Cancelled; Done; Done] /\ backlog w = [1; 2]%nat /\
  started w = [1; 2]%nat.
Proof. by vm_compute. Qed.

(** A task that is already running when it is evicted is left to finish. *)
Example running_task_is_kept :
  let w := run __init__ [Submit; Start; Submit; Submit; Finish; Start] in
  tasks w = [Done; Running; Pending] /\ backlog w = [1; 2]%nat /\
  started w = [0; 1]%nat.
Proof. by vm_compute. Qed.

End Dispatcher.

(** ** The logging redirect *)

Section Redirect.
Import Logging.

Lemma first_console_is_console l o :
  _get_first_found_console_logging_handler l = Some o ->
  _is_console_logging_handler o = true.
Proof.
  induction l as [|h l IH]; simpl; [done|].
  destruct (_is_console_logging_handler h) eqn:Hh; [|done].
  by intros [= <-].
Qed.

Lemma not_console_app a b : not_console (a ++ b) = not_console a ++ not_console b.
Proof. apply List.filter_app. Qed.

Lemma not_console_idem l : not_console (not_console l) = not_console l.
Proof.
  unfold not_console. induction l as [|h l IH]; simpl; [done|].
  destruct (_is_console_logging_handler h) eqn:Hh; simpl; [done|].
  by rewrite Hh, IH.
Qed.

Lemma not_console_single t :
  _is_console_logging_handler t = true -> not_console [t] = [].
Proof. unfold not_console. simpl. by intros ->. Qed.

(** What one turn of the loop stores in the logger. *)
Lemma redirect_one_handlers cls m lg :
  exists t, _is_console_logging_handler t = true /\
    handlers_of (redirect_one cls m lg) lg
    = not_console (handlers_of m lg) ++ [t].
Proof.
  unfold redirect_one, assign_new_list, handlers_of at 1. simpl.
  rewrite !fn_lookup_insert.
  destruct (_get_first_found_console_logging_handler _) as [o|] eqn:Ho.
  - eexists. split; [|reflexivity].
    apply first_console_is_console in Ho. by destruct o.
  - eexists. split; [|reflexivity]. done.
Qed.

Lemma redirect_one_lists cls m lg a :
  (a < next m)%nat -> lists (redirect_one cls m lg) a = lists m a.
Proof.
  intros Ha. unfold redirect_one, assign_new_list. simpl.
  apply fn_lookup_insert_ne. lia.
Qed.

Lemma redirect_one_other cls m lg lg' :
  lg <> lg' -> handlers (redirect_one cls m lg) lg' = handlers m lg'.
Proof. intros Hne. unfold redirect_one. simpl. by apply fn_lookup_insert_ne. Qed.

Lemma inv_redirect_one cls all seen m0 m lg :
  (forall lg', lg' ∈ all -> (handlers m0 lg' < next m0)%nat) ->
  (forall lg', lg' ∈ seen -> lg' ∈ all) ->
  lg ∈ all ->
  redirect_inv all seen m0 m ->
  redirect_inv all (seen ++ [lg]) m0 (redirect_one cls m lg).
Proof.
  intros Hwf Hsub Hlg [Hn Ho Ha Hu Hs]. split.
  - unfold redirect_one. simpl. lia.
  - intros a Hlt. rewrite redirect_one_lists by lia. by apply Ho.
  - intros lg' Hin. destruct (decide (lg = lg')) as [<-|Hne].
    + unfold redirect_one. simpl. rewrite fn_lookup_insert. lia.
    + rewrite redirect_one_other by done.
      apply Ha in Hin. unfold redirect_one. simpl. lia.
  - intros lg' Hnot. rewrite redirect_one_other.
    + apply Hu. intros Hin. apply Hnot, elem_of_app. by left.
    + intros ->. apply Hnot, elem_of_app. right. by apply list_elem_of_singleton.
  - intros lg' Hin. destruct (decide (lg = lg')) as [<-|Hne].
    + destruct (redirect_one_handlers cls m lg) as (t & Ht & Heq).
      exists t. split; [done|]. rewrite Heq. f_equal.
      destruct (decide (lg ∈ seen)) as [Hseen|Hseen].
      * destruct (Hs lg Hseen) as (t0 & Ht0 & ->).
        by rewrite not_console_app, not_console_idem,
          (not_console_single _ Ht0), app_nil_r.
      * unfold handlers_of. rewrite (Hu lg Hseen). f_equal.
        apply Ho. by apply Hwf.
    + apply elem_of_app in Hin as [Hin|Hin%list_elem_of_singleton]; [|done].
      destruct (Hs lg' Hin) as (t & Ht & Heq). exists t. split; [done|].
      rewrite <- Heq. unfold handlers_of.
      rewrite redirect_one_other by done.
      apply redirect_one_lists. by apply Ha, Hsub.
Qed.

Lemma inv_redirect_start all m0 :
  (forall lg, lg ∈ all -> (handlers m0 lg < next m0)%nat) ->
  redirect_inv all [] m0 m0.
Proof.
  intros Hwf. split; try done.
  intros lg Hin. by apply elem_of_nil in Hin.
Qed.

Lemma inv_redirect_loop cls all m0 todo seen m :
  (forall lg, lg ∈ all -> (handlers m0 lg < next m0)%nat) ->
  (forall lg, lg ∈ seen -> lg ∈ all) ->
  (forall lg, lg ∈ todo -> lg ∈ all) ->
  redirect_inv all seen m0 m ->
  redirect_inv all (seen ++ todo) m0 (fold_left (redirect_one cls) todo m).
Proof.
  intros Hwf. revert seen m.
  induction todo as [|lg todo IH]; intros seen m Hseen Htodo Hinv; simpl.
  - by rewrite app_nil_r.
  - replace (seen ++ lg :: todo) with ((seen ++ [lg]) ++ todo)
      by (by rewrite <- app_assoc).
    apply IH.
    + intros x [Hx|Hx%list_elem_of_singleton]%elem_of_app; [by apply Hseen|].
      subst x. apply Htodo. by left.
    + intros x Hx. apply Htodo. by right.
    + apply inv_redirect_one; try done. apply Htodo. by left.
Qed.

Lemma restore_lists ls locs m : lists (restore ls locs m) = lists m.
Proof.
  unfold restore. revert m.
  induction (zip ls locs) as [|[lg a] z IH]; intros m; simpl; [done|].
  by rewrite IH.
Qed.

Lemma restore_other ls locs m lg :
  lg ∉ ls -> handlers (restore ls locs m) lg = handlers m lg.
Proof.
  unfold restore. revert locs m.
  induction ls as [|x ls IH]; intros [|a locs] m Hnot; simpl; try done.
  rewrite IH.
  - simpl. apply fn_lookup_insert_ne. intros ->. apply Hnot. by left.
  - intros Hin. apply Hnot. by right.
Qed.

(** After the [finally] block every listed logger refers to the list
    object saved for it. *)
Lemma restore_saved (f : logger -> loc) ls m lg :
  lg ∈ ls -> handlers (restore ls (List.map f ls) m) lg = f lg.
Proof.
  revert m. induction ls as [|x ls IH]; intros m Hin.
  - by apply elem_of_nil in Hin.
  - change (restore (x :: ls) (List.map f (x :: ls)) m)
      with (restore ls (List.map f ls) (assign x (f x) m)).
    destruct (decide (lg ∈ ls)) as [Hls|Hls]; [by apply IH|].
    apply elem_of_cons in Hin as [->|Hin]; [|done].
    rewrite restore_other by done. simpl. apply fn_lookup_insert.
Qed.

Lemma redirect_loop_old cls ls m a :
  (a < next m)%nat ->
  lists (fold_left (redirect_one cls) ls m) a = lists m a.
Proof.
  revert m. induction ls as [|lg ls IH]; intros m Ha; simpl; [done|].
  rewrite IH by (unfold redirect_one; simpl; lia).
  by apply redirect_one_lists.
Qed.

(** C10. When the context manager exits, with or without an exception of
    its body, the [handlers] attribute of every listed logger refers again
    to the list object it referred to on entry, and that list has the
    contents it had on entry unless the body itself changed that object.
    When the body starts, the logger's list holds the handlers of the
    original list that are not console handlers, in their order, followed
    by one handler that writes through tqdm. *)
Theorem handlers_restored (loggers : option (list logger)) (tqdm_class : nat)
    (body : heap -> outcome unit * heap) (m : heap) (lg : logger)
    (Hin : lg ∈ default [root] loggers) :
  let '(ls, saved, m1) := enter loggers tqdm_class m in
  let '(r, m3) := logging_redirect_tqdm loggers tqdm_class body m in
  r = fst (body m1) /\
  handlers m3 lg = handlers m lg /\
  ((handlers m lg < next m)%nat ->
   lists (snd (body m1)) (handlers m lg) = lists m1 (handlers m lg) ->
   handlers_of m3 lg = handlers_of m lg) /\
  ((forall lg', lg' ∈ ls -> (handlers m lg' < next m)%nat) ->
   exists t, _is_console_logging_handler t = true /\
     handlers_of m1 lg = not_console (handlers_of m lg) ++ [t] /\
     not_console (handlers_of m1 lg) = not_console (handlers_of m lg)).
Proof.
  unfold logging_redirect_tqdm, enter.
  set (ls := default [root] loggers) in *.
  set (m1 := fold_left (redirect_one tqdm_class) ls m).
  destruct (body m1) as [r m2] eqn:Hbody. simpl.
  assert (handlers (restore ls (List.map (handlers m) ls) m2) lg
          = handlers m lg) as Hptr by by apply restore_saved.
  split; [done|]. split; [done|]. split.
  - intros Hwf Hkeep. unfold handlers_of.
    rewrite Hptr, restore_lists, Hkeep. by apply redirect_loop_old.
  - intros Hwf.
    assert (redirect_inv ls ([] ++ ls) m m1) as Hinv.
    { apply inv_redirect_loop; try done.
      - intros x Hx. by apply elem_of_nil in Hx.
      - by apply inv_redirect_start. }
    destruct (inv_seen _ _ _ _ Hinv lg Hin) as (t & Ht & Heq).
    exists t. split; [done|]. split; [done|].
    by rewrite Heq, not_console_app, not_console_idem,
      (not_console_single _ Ht), app_nil_r.
Qed.

Lemma handlers_restored_witness :
  let m3 := snd (logging_redirect_tqdm (Some [1; 1; 2]%nat) 0 sample_body
                   sample_heap) in
  handlers m3 1%nat = 1%nat /\
  handlers_of m3 1%nat = handlers_of sample_heap 1%nat.
Proof.
  pose proof (handlers_restored (Some [1; 1; 2]%nat) 0 sample_body
                sample_heap 1%nat (list_elem_of_here _ _)) as H.
  destruct (enter _ _ _) as [[ls saved] m1] eqn:He.
  destruct (logging_redirect_tqdm _ _ _ _) as [r m3] eqn:Hl.
  destruct H as (_ & Hptr & Hcont & _). simpl. split; [exact Hptr|].
  apply Hcont; [vm_compute; lia|].
  injection He as <- <- <-. reflexivity.
Defined.

(** While the body runs, logger 1 of the sample keeps its file handler and
    its console handler is replaced. *)
Example redirect_sample :
  let '(_, _, m1) := enter (Some [1; 1; 2]%nat) 0 sample_heap in
  handlers_of m1 1%nat
  = [StreamHandler (OtherStream 3) None;
     TqdmLoggingHandler 0 Stderr (Some 5%nat)].
Proof. reflexivity. Qed.

End Redirect.

(** * Further properties *)

(** ** [str.replace] and the format of the bar *)

Section Replace.

Lemma substring_in_cons q c s :
  substring_in q (c :: s) = is_prefix q (c :: s) || substring_in q s.
Proof. reflexivity. Qed.

Lemma substring_in_suffix q t s :
  t `suffix_of` s -> substring_in q s = false -> is_prefix q t = false.
Proof.
  intros [k ->]. induction k as [|c k IH]; simpl.
  - destruct t; simpl; [by rewrite orb_false_r|].
    by intros [? _]%orb_false_iff.
  - intros [_ H]%orb_false_iff. by apply IH.
Qed.

(** A string in which [old] does not occur is left as it is. *)
Lemma replace_from_absent old new s :
  substring_in old s = false -> replace_from old new s 0 = s.
Proof.
  induction s as [|c s IH]; [done|].
  rewrite substring_in_cons. intros [Hp Hs]%orb_false_iff.
  simpl replace_from. rewrite Hp. by rewrite IH.
Qed.

(** A prefix that the original string does not have is not brought about
    by the replacement, when it does not hold the first character of the
    inserted string. *)
Lemma is_prefix_replace_from old n0 new' p t :
  n0 ∉ p -> is_prefix p t = false ->
  is_prefix p (replace_from old (n0 :: new') t 0) = false.
Proof.
  revert p. induction t as [|c t IH]; intros [|a p] Hn0 Hp; try done.
  apply not_elem_of_cons in Hn0 as [Hne Hn0].
  simpl replace_from. destruct (is_prefix old (c :: t)).
  - simpl. apply andb_false_iff. left. apply N.eqb_neq. congruence.
  - simpl in *. apply andb_false_iff in Hp as [Hp|Hp].
    + by rewrite Hp.
    + rewrite (IH p Hn0 Hp). apply andb_false_r.
Qed.

Lemma substring_in_segment q0 q' seg rest :
  q0 ∉ seg -> substring_in (q0 :: q') rest = false ->
  substring_in (q0 :: q') (seg ++ rest) = false.
Proof.
  intros Hseg Hrest. induction seg as [|x seg IH]; [done|].
  apply not_elem_of_cons in Hseg as [Hne Hseg].
  simpl app. rewrite substring_in_cons, (IH Hseg), orb_false_r. simpl.
  apply andb_false_iff. left. apply N.eqb_neq. congruence.
Qed.

(** No occurrence of [q] in the result of a replacement, when [q] cannot
    start inside an inserted string, cannot run into one, and is absent
    from the original wherever [old] is. *)
Lemma replace_from_no_occurrence old n0 new' q0 q' s k :
  n0 ∉ q' -> q0 ∉ new' ->
  (forall rest, is_prefix (q0 :: q') ((n0 :: new') ++ rest) = false) ->
  (forall t, t `suffix_of` s -> is_prefix old t = false ->
             is_prefix (q0 :: q') t = false) ->
  substring_in (q0 :: q') (replace_from old (n0 :: new') s k) = false.
Proof.
  intros H1 H3 H2. revert k.
  induction s as [|c s IH]; intros k Hs; [done|].
  assert (forall k, substring_in (q0 :: q')
                      (replace_from old (n0 :: new') s k) = false) as IH'.
  { intros k'. apply IH. intros t Ht. apply Hs. by apply suffix_cons_r. }
  destruct k as [|k]; simpl replace_from; [|apply IH'].
  destruct (is_prefix old (c :: s)) eqn:Hold.
  - simpl app. rewrite substring_in_cons.
    rewrite (substring_in_segment _ _ _ _ H3 (IH' _)), orb_false_r.
    apply H2.
  - rewrite substring_in_cons, IH', orb_false_r.
    assert ((c :: s) `suffix_of` (c :: s)) as Hrefl by by exists [].
    pose proof (Hs (c :: s) Hrefl Hold) as Hq.
    simpl in *. apply andb_false_iff in Hq as [Hq|Hq]; [by rewrite Hq|].
    rewrite (is_prefix_replace_from old n0 new' q' s H1 Hq).
    apply andb_false_r.
Qed.

End Replace.

Lemma replace_absent old new s :
  substring_in old s = false -> replace old new s = s.
Proof.
  destruct old as [|c old]; [by destruct s|].
  apply replace_from_absent.
Qed.

Ltac absent_char := apply (bool_decide_unpack _); by vm_compute.

Lemma bar_rewrite_no_placeholder f :
  let f' := replace (py "{bar}") bar10 (replace (py "<bar/>") bar10 f) in
  substring_in (py "<bar/>") f' = false /\
  substring_in (py "{bar}") f' = false.
Proof.
  set (f1 := replace (py "<bar/>") bar10 f).
  assert (substring_in (py "<bar/>") f1 = false) as H1.
  { apply (replace_from_no_occurrence (py "<bar/>") 123%N (py "bar:10u}")
             60%N (py "bar/>")); try absent_char; [by intros|done]. }
  simpl. split.
  - apply (replace_from_no_occurrence (py "{bar}") 123%N (py "bar:10u}")
             60%N (py "bar/>")); try absent_char; [by intros|].
    intros t Ht _. by eapply substring_in_suffix.
  - apply (replace_from_no_occurrence (py "{bar}") 123%N (py "bar:10u}")
             123%N (py "bar}")); try absent_char; [by intros|done].
Qed.

(** discord.py 125-135, telegram.py 119-126. The format that [display]
    hands to [format_meter] holds neither placeholder of the bar, [<bar/>]
    or [{bar}]; a format without them is handed on unchanged; an empty or
    missing format becomes the default one; every other key of the format
    dictionary is kept; and the only failure is a true [bar_format] that is
    not a string. *)
Theorem display_format_has_no_placeholder (fmt : gmap string value) :
  match with_fixed_bar fmt with
  | Returned fmt' =>
      (exists f',
         fmt' !! "bar_format" = Some (VStr f') /\
         substring_in (py "<bar/>") f' = false /\
         substring_in (py "{bar}") f' = false /\
         match fmt !! "bar_format" with
         | Some (VStr (c :: f)) =>
             substring_in (py "<bar/>") (c :: f) = false ->
             substring_in (py "{bar}") (c :: f) = false -> f' = c :: f
         | _ => True
         end /\
         (truthy (default VNone (fmt !! "bar_format")) = false ->
          f' = py "{l_bar}{bar:10u}{r_bar}")) /\
      (forall k, k <> "bar_format" -> fmt' !! k = fmt !! k)
  | Raised e =>
      e = AttributeError "replace" /\
      exists v, fmt !! "bar_format" = Some v /\ truthy v = true /\
                forall f, v <> VStr f
  end.
Proof.
  unfold with_fixed_bar.
  destruct (fmt !! "bar_format") as [v|] eqn:Hv.
  - change (default VNone (Some v)) with v.
    destruct (truthy v) eqn:Ht.
    + destruct v as [| | |f| |]; lazy beta iota;
        try (split; [done|]; eexists; by repeat split).
      split; [|intros k Hk; by rewrite lookup_insert_ne].
      eexists. rewrite lookup_insert_eq. split; [done|].
      destruct (bar_rewrite_no_placeholder f) as [Ha Hb].
      split; [done|]. split; [done|]. split; [|done].
      destruct f as [|c f]; [done|]. intros H1 H2.
      by rewrite (replace_absent _ _ _ H1), (replace_absent _ _ _ H2).
    + lazy beta iota. split; [|intros k Hk; by rewrite lookup_insert_ne].
      eexists. rewrite lookup_insert_eq. split; [done|].
      split; [done|]. split; [done|]. split; [|done].
      destruct v as [| | |[|c f]| |]; done.
  - change (default VNone None) with VNone.
    change (truthy VNone) with false. lazy beta iota.
    split; [|intros k Hk; by rewrite lookup_insert_ne].
    eexists. rewrite lookup_insert_eq. by repeat split.
Qed.

Example display_format_samples :
  replace (py "{bar}") bar10 (replace (py "<bar/>") bar10
     (py "{l_bar}{bar}|<bar/>{r_bar}"))
  = py "{l_bar}{bar:10u}|{bar:10u}{r_bar}" /\
  replace (py "") (py "-") (py "abc") = py "-a-b-c-" /\
  replace (py "aa") (py "b") (py "aaaaa") = py "bba".
Proof. by vm_compute. Qed.

(** ** More on the sinks *)

Lemma telegram_write_text E s tg h :
  TelegramIO.text (snd (fst (TelegramIO.write E s tg h))) = normalize s.
Proof.
  unfold TelegramIO.write, bind, get, put, ret. simpl.
  destruct (str_eqb (normalize s) (TelegramIO.text tg)) eqn:Heq; simpl.
  - symmetry. by apply bool_decide_eq_true in Heq.
  - unfold try_except_else, TelegramIO.get_message_id, bind, get, raise,
      ret, submit, tqdm_write, emit. simpl.
    destruct (TelegramIO.message_id tg); simpl; [|done].
    by destruct (submit_answer E h _).
Qed.

Ltac find_event :=
  repeat first [apply list_elem_of_here | apply list_elem_of_further].

(** telegram.py 50-66. The Telegram sink records the text before it builds
    the request, so a text is never sent again by repeating the call, also
    when the first call failed (no identifier, or the dispatcher raised):
    after [write], a [write] with the same normal form makes no call and
    changes nothing. *)
Theorem telegram_write_not_repeated (E : env) (s s' : option str)
    (tg : TelegramIO.t) (h : trace) (Hsame : normalize s = normalize s') :
  let '(_, tg1, h1) := TelegramIO.write E s tg h in
  TelegramIO.text tg1 = normalize s /\
  TelegramIO.write E s' tg1 h1 = (Returned None, tg1, h1).
Proof.
  destruct (TelegramIO.write E s tg h) as [[r tg1] h1] eqn:Hw.
  assert (TelegramIO.text tg1 = normalize s) as Htext.
  { pose proof (telegram_write_text E s tg h) as H. by rewrite Hw in H. }
  split; [done|].
  unfold TelegramIO.write, bind, get, ret. simpl.
  by rewrite <- Hsame, <- Htext, str_eqb_refl.
Qed.

Lemma telegram_write_not_repeated_witness :
  let '(_, tg1, h1) :=
    TelegramIO.write offline (Some (py "10%"))
      (TelegramIO.Build VNone VNone (py "TelegramIO") None) [] in
  TelegramIO.text tg1 = py "10%" /\
  TelegramIO.write offline (Some (py "10%  ")) tg1 h1 = (Returned None, tg1, h1).
Proof.
  apply (telegram_write_not_repeated offline (Some (py "10%"))
           (Some (py "10%  "))
           (TelegramIO.Build VNone VNone (py "TelegramIO") None) []).
  reflexivity.
Defined.

(** discord.py 78-93. [delete] of the Discord sink has no test for a
    missing identifier: when none is recorded and the create request it
    repeats ends without one, it hands to the dispatcher the deletion of
    the message [None]. The sink is unchanged. *)
Theorem discord_delete_without_identifier (E : env) (dc : DiscordIO.t)
    (h : trace)
    (Hnone : DiscordIO._message_id dc = None)
    (Hfail : create_fails_quietly (http_answer E h (discord_create dc))) :
  exists r new a,
    DiscordIO.delete E dc h = (Returned r, dc, h ++ new) /\
    EvSubmit (DiscordDelete (DiscordIO.token dc) (DiscordIO.channel_id dc)
                VNone) a ∈ new /\
    create_requests new = 1%nat /\
    r = match a with SubmitFuture f => Some f | SubmitRaise _ => None end.
Proof.
  unfold create_fails_quietly, discord_create in Hfail.
  unfold DiscordIO.delete, DiscordIO.message_id, try_except_else, bind, get,
    put, ret, lift, http, submit, tqdm_write, emit. simpl. rewrite Hnone.
  destruct (json_of _) as [res|e] eqn:Hj; simpl.
  - rewrite Hfail. simpl.
    destruct (submit_answer E _ _) as [e|f] eqn:Hs; simpl;
      rewrite <- ?app_assoc; eexists _, _, _;
      (split; [reflexivity|]); rewrite ?Hs;
      (split; [find_event|]); by split.
  - destruct (submit_answer E _ _) as [e'|f] eqn:Hs; simpl;
      rewrite <- ?app_assoc; eexists _, _, _;
      (split; [reflexivity|]); rewrite ?Hs;
      (split; [find_event|]); by split.
Qed.

Lemma discord_delete_without_identifier_witness :
  exists r new a,
    DiscordIO.delete offline
      (DiscordIO.Build VNone (VStr (py "42")) (py "DiscordIO") None) []
    = (Returned r, DiscordIO.Build VNone (VStr (py "42")) (py "DiscordIO") None,
       [] ++ new) /\
    EvSubmit (DiscordDelete VNone (VStr (py "42")) VNone) a ∈ new /\
    create_requests new = 1%nat /\
    r = match a with SubmitFuture f => Some f | SubmitRaise _ => None end.
Proof.
  apply (discord_delete_without_identifier offline
           (DiscordIO.Build VNone (VStr (py "42")) (py "DiscordIO") None) []);
    [reflexivity|exact I].
Defined.

(** telegram.py 31-48. The constructor of the Telegram sink returns a sink
    in two cases only: the request raised (the sink then has no
    identifier), or the body of the answer is a JSON object whose [result]
    holds a [message_id] (which the sink records). Any other answer makes
    the constructor raise. *)
Theorem telegram_constructor_outcome (E : env) (token chat_id : value)
    (h : trace) :
  let a := http_answer E ((h ++ [EvNewPool]) ++ [EvNewSession])
             (TelegramSendMessage token chat_id (quoted (py "TelegramIO"))) in
  let found :=
    match json_of a with
    | Returned j =>
        match subscript j "result" with
        | Returned r =>
            match subscript r "message_id" with
            | Returned v => Some v
            | Raised _ => None
            end
        | Raised _ => None
        end
    | Raised _ => None
    end in
  match fst (TelegramIO.__init__ E token chat_id h) with
  | Returned tg =>
      TelegramIO.token tg = token /\ TelegramIO.chat_id tg = chat_id /\
      TelegramIO.text tg = py "TelegramIO" /\
      match a with
      | HttpRaise _ => TelegramIO.message_id tg = None
      | HttpResponse _ =>
          is_Some found /\ TelegramIO.message_id tg = found
      end
  | Raised _ => found = None /\ exists body, a = HttpResponse body
  end.
Proof.
  intros a found. subst a found.
  unfold TelegramIO.__init__, TelegramIO.create, try_except_else, bind, get,
    put, ret, raise, lift, http, tqdm_write, warn, emit. simpl.
  destruct (http_answer E _ _) as [e|[j|]] eqn:Ha; simpl; [done| |by eauto].
  destruct (dot_get j "error_code") as [code|e] eqn:Hc; simpl.
  - destruct (subscript j "result") as [r|e] eqn:Hr; simpl;
      [destruct (subscript r "message_id") as [v|e] eqn:Hv; simpl|];
      destruct (eq_int code 429); simpl; rewrite ?Hr, ?Hv; simpl; eauto.
  - destruct j; try discriminate; simpl; eauto.
Qed.

(** discord.py 20-48. The constructor of the Discord sink records an
    identifier exactly when the create request is answered by a JSON object
    with the key ["id"], and what it records is the value under that key. *)
Theorem discord_constructor_records (E : env) (token channel_id : value)
    (h : trace) (v : value) :
  (exists dc, fst (DiscordIO.__init__ E token channel_id h) = Returned dc /\
              DiscordIO._message_id dc = Some v) <->
  (exists kv,
     json_of (http_answer E (h ++ [EvNewPool])
                (DiscordCreate token channel_id (quoted (py "DiscordIO"))))
     = Returned (VDict kv) /\
     dict_get kv (py "id") = Some v).
Proof.
  unfold DiscordIO.__init__, DiscordIO.message_id, try_except_else, bind,
    get, put, ret, raise, lift, http, tqdm_write, emit. simpl.
  destruct (json_of _) as [res|e] eqn:Hj; simpl.
  - destruct res as [| | |s|l|kv]; simpl.
    1-3: split; [intros (dc & H & _); discriminate|intros (kv & H & _); discriminate].
    + destruct (substring_in _ s); simpl;
        (split; [intros (dc & H & H'); by simplify_eq
                |intros (kv & H & _); discriminate]).
    + destruct (existsb _ l); simpl;
        (split; [intros (dc & H & H'); by simplify_eq
                |intros (kv & H & _); discriminate]).
    + destruct (dict_get kv (py "id")) as [x|] eqn:Hd; simpl.
      * split.
        -- intros (dc & H & H'). simplify_eq. simpl in H'. simplify_eq.
           by exists kv.
        -- intros (kv' & H & H'). simplify_eq. eexists. split; [done|].
           simpl. congruence.
      * split; [intros (dc & H & H'); by simplify_eq|].
        intros (kv' & H & H'). by simplify_eq.
  - split; [intros (dc & H & H'); by simplify_eq
           |intros (kv & H & _); discriminate].
Qed.

(** ** Normalisation of a text of white space *)

Lemma lstrip_nil s : lstrip s = [] <-> all_space s.
Proof.
  unfold all_space. induction s as [|c s IH]; simpl; [done|].
  destruct (isspace c); simpl; [done|]. split; discriminate.
Qed.

Lemma all_space_reverse_iff s : all_space (reverse s) <-> all_space s.
Proof.
  split; [|apply all_space_reverse].
  intros H%all_space_reverse. by rewrite reverse_involutive in H.
Qed.

Lemma strip_nil s : strip s = [] <-> all_space s.
Proof.
  unfold strip, rstrip. split.
  - intros H. apply (f_equal reverse) in H.
    rewrite reverse_involutive in H. change (reverse []) with (@nil codepoint) in H.
    apply lstrip_nil, all_space_reverse_iff in H.
    destruct (lstrip_split s) as (pre & Heq & Hpre). rewrite Heq.
    apply all_space_app; [done|]. by rewrite reverse_involutive in H.
  - intros H%lstrip_nil. by rewrite H.
Qed.

Lemma all_space_remove_cr s : all_space (remove_char CR s) <-> all_space s.
Proof.
  unfold all_space, remove_char. induction s as [|c s IH]; simpl; [done|].
  destruct (N.eqb_spec c CR) as [->|Hne]; simpl; [done|].
  destruct (isspace c); simpl; [done|]. split; discriminate.
Qed.

(** discord.py 52-54, telegram.py 52-54. The placeholder stands in for the
    empty string and for [None] only: the normal form of a text is empty
    exactly when the text is not empty and consists of white space, and
    such a text is sent as an empty message. *)
Theorem normalize_empty_iff (s : option str) :
  normalize s = [] <->
  exists t, s = Some t /\ t <> [] /\ all_space t.
Proof.
  rewrite normalize_unfold. destruct s as [[|c t]|]; simpl or_placeholder.
  - split; [by vm_compute|]. by intros (t & [= <-] & Ht & _).
  - rewrite strip_nil, all_space_remove_cr. split.
    + intros H. by exists (c :: t).
    + by intros (t' & [= <-] & _ & H).
  - split; [by vm_compute|]. by intros (t & H & _).
Qed.

(** ** [display] and [clear] *)

(** discord.py 125-136, telegram.py 119-127. [display] does not test
    [disable]: on a meter without a sink it raises [AttributeError] once the
    base [display] and the rewriting of the format have returned. On a
    meter with a sink it has the effect of one [write] of the text that
    [format_meter] returns for the rewritten format, and it sends nothing
    when the base [display], the rewriting or [format_meter] raises. *)
Theorem display_writes_formatted_text (E : env) (H : std_hooks)
    (f : std_fields) (dio : DiscordIO.t) (tgio : TelegramIO.t) (h : trace) :
  let md := tqdm_discord.Build (Some dio) f in
  let mt := tqdm_telegram.Build (Some tgio) f in
  let md0 := tqdm_discord.Build None f in
  let mt0 := tqdm_telegram.Build None f in
  let lifted (r : outcome (option nat)) : outcome unit :=
    match r with Returned _ => Returned tt | Raised e => Raised e end in
  match std_display_answer H h f with
  | Raised e =>
      tqdm_discord_display E H md h = (Raised e, md, h) /\
      tqdm_telegram_display E H mt h = (Raised e, mt, h)
  | Returned _ =>
      match with_fixed_bar (format_dict_answer H h f) with
      | Raised e =>
          tqdm_discord_display E H md h = (Raised e, md, h) /\
          tqdm_telegram_display E H mt h = (Raised e, mt, h)
      | Returned fmt =>
          tqdm_discord_display E H md0 h
          = (Raised (AttributeError "dio"), md0, h) /\
          tqdm_telegram_display E H mt0 h
          = (Raised (AttributeError "tgio"), mt0, h) /\
          match format_meter_answer H fmt with
          | Raised e =>
              tqdm_discord_display E H md h = (Raised e, md, h) /\
              tqdm_telegram_display E H mt h = (Raised e, mt, h)
          | Returned s =>
              (let '(r, dio', h') := DiscordIO.write E (Some s) dio h in
               tqdm_discord_display E H md h
               = (lifted r, tqdm_discord.Build (Some dio') f, h')) /\
              (let '(r, tgio', h') := TelegramIO.write E (Some s) tgio h in
               tqdm_telegram_display E H mt h
               = (lifted r, tqdm_telegram.Build (Some tgio') f, h'))
          end
      end
  end.
Proof.
  intros md mt md0 mt0 lifted. subst md mt md0 mt0 lifted.
  unfold tqdm_discord_display, tqdm_telegram_display, std_display,
    format_dict, call_attr, bind, get, ret, raise, lift.
  cbn -[DiscordIO.write TelegramIO.write with_fixed_bar].
  destruct (std_display_answer H h f) as [[]|e]; [|done].
  destruct (with_fixed_bar _) as [fmt|e]; [|done].
  split; [done|]. split; [done|].
  destruct (format_meter_answer H fmt) as [s|e]; [|done].
  destruct (DiscordIO.write E (Some s) dio h) as [[[r|e] dio'] h'];
    destruct (TelegramIO.write E (Some s) tgio h) as [[[r'|e'] tgio'] h''];
    done.
Qed.







(** ** The arguments of the constructors *)

Lemma discord_init_events E token channel_id h :
  exists new,
    snd (DiscordIO.__init__ E token channel_id h) = h ++ new /\
    Forall (fun ev =>
              match ev with
              | EvHttp r _ =>
                  r = DiscordCreate token channel_id (quoted (py "DiscordIO"))
              | EvSubmit _ _ | EvStdInit _ _ _ | EvStdClose _ => False
              | _ => True
              end) new.
Proof.
  run_method; rewrite <- ?app_assoc; eexists; (split; [reflexivity|]);
    by repeat constructor.
Qed.


(** discord.py 117-123. On a meter that is not disabled, the sink is built
    first, before the base constructor is called, from the keyword
    arguments [token] and [channel_id] when these are given, whatever their
    value, and from the environment variables only when they are absent.
    Up to the call of the base constructor the only request sent is the
    create request with them, and nothing is handed to the dispatcher.
    When the sink constructor raises, the base constructor is not called.
    Otherwise it is called with the positional arguments and every other
    keyword argument unchanged, and neither [token] nor [channel_id].
    Nothing is said about what the base constructor does during its run. *)
Theorem discord_meter_arguments (E : env) (args : list value)
    (kwargs : gmap string value) (h : trace)
    (Hen : truthy (default VNone (kwargs !! "disable")) = false) :
  let token :=
    match kwargs !! "token" with
    | Some v => v
    | None => getenv E "TQDM_DISCORD_TOKEN"
    end in
  let channel_id :=
    match kwargs !! "channel_id" with
    | Some v => v
    | None => getenv E "TQDM_DISCORD_CHANNEL_ID"
    end in
  exists pre,
    snd (DiscordIO.__init__ E token channel_id h) = h ++ pre /\
    Forall (fun ev =>
              match ev with
              | EvHttp r _ =>
                  r = DiscordCreate token channel_id (quoted (py "DiscordIO"))
              | EvSubmit _ _ | EvStdInit _ _ _ | EvStdClose _ => False
              | _ => True
              end) pre /\
    match fst (DiscordIO.__init__ E token channel_id h) with
    | Raised e =>
        tqdm_discord.__init__ E args kwargs h = (Raised e, h ++ pre)
    | Returned dc =>
        exists kw a rest,
          snd (tqdm_discord.__init__ E args kwargs h)
          = h ++ pre ++ EvStdInit args kw a :: rest /\
          kw !! "token" = None /\ kw !! "channel_id" = None /\
          (forall k, k <> "token" -> k <> "channel_id" ->
                     kw !! k = kwargs !! k) /\
          match fst (tqdm_discord.__init__ E args kwargs h) with
          | Returned m => tqdm_discord.dio m <> None
          | Raised _ => True
          end
    end.
Proof.
  intros token channel_id. unfold tqdm_discord.__init__. rewrite Hen.
  cbn -[DiscordIO.__init__].
  rewrite (lookup_delete_ne kwargs "token" "channel_id") by done.
  change (default (getenv E "TQDM_DISCORD_TOKEN") (kwargs !! "token"))
    with token.
  change (default (getenv E "TQDM_DISCORD_CHANNEL_ID") (kwargs !! "channel_id"))
    with channel_id.
  destruct (discord_init_events E token channel_id h) as (new & Hnew & Hall).
  exists new. split; [done|].
  split. { eapply Forall_impl; [exact Hall|]. by intros []. }
  destruct (DiscordIO.__init__ E token channel_id h) as [[dc|e] h1];
    simpl in Hnew; subst h1; cbn; [|done].
  eexists _, _, []. split; [by rewrite <- app_assoc|].
  split; [by rewrite lookup_delete_ne, lookup_delete_eq|].
  split; [by rewrite lookup_delete_eq|].
  split; [intros k Hk1 Hk2; by rewrite !lookup_delete_ne|].
  by destruct (std_init_answer E _ _ _).
Qed.

Lemma discord_meter_arguments_witness :
  truthy (default VNone
            (({[ "token" := VNone; "leave" := VBool false ]}
                : gmap string value) !! "disable")) = false /\
  exists pre,
    snd (DiscordIO.__init__ offline VNone (getenv offline "TQDM_DISCORD_CHANNEL_ID")
           [])
    = [] ++ pre.
Proof.
  assert (truthy (default VNone
            (({[ "token" := VNone; "leave" := VBool false ]}
                : gmap string value) !! "disable")) = false) as Hen
    by reflexivity.
  split; [exact Hen|].
  destruct (discord_meter_arguments offline [VList []]
              {[ "token" := VNone; "leave" := VBool false ]} [] Hen)
    as (pre & Hpre & _).
  by exists pre.
Defined.


(** ** logging.py: the handler, the logging meter, the redirect *)

Section MoreLogging.
Import Logging.

(** logging.py 40-49. [_get_first_found_console_logging_handler] returns
    the leftmost console handler of the list, and [None] exactly when the
    list has no console handler. *)
Theorem first_console_handler_is_leftmost (hs : list handler) :
  match _get_first_found_console_logging_handler hs with
  | Some o =>
      exists before after,
        hs = before ++ o :: after /\
        _is_console_logging_handler o = true /\
        Forall (fun x => _is_console_logging_handler x = false) before
  | None => Forall (fun x => _is_console_logging_handler x = false) hs
  end.
Proof.
  induction hs as [|x hs IH]; simpl; [done|].
  destruct (_is_console_logging_handler x) eqn:Hx.
  - by exists [], hs.
  - destruct (_get_first_found_console_logging_handler hs) as [o|].
    + destruct IH as (before & after & -> & Ho & Hb).
      exists (x :: before), after. by repeat constructor.
    + by constructor.
Qed.

Lemma redirect_loop_next cls ls m :
  (next m <= next (fold_left (redirect_one cls) ls m))%nat.
Proof.
  revert m. induction ls as [|lg ls IH]; intros m; simpl; [done|].
  etrans; [|apply IH]. unfold redirect_one. simpl. lia.
Qed.

Lemma redirect_loop_other cls ls m lg :
  lg ∉ ls ->
  handlers (fold_left (redirect_one cls) ls m) lg = handlers m lg.
Proof.
  revert m. induction ls as [|x ls IH]; intros m Hnot; simpl; [done|].
  apply not_elem_of_cons in Hnot as [Hne Hnot].
  rewrite IH by done. by apply redirect_one_other.
Qed.

(** logging.py 86-102. A logger that is not in the list is never touched:
    when the body starts it refers to the same list object with the same
    contents, and on exit no assignment is made to it, so that what the
    body did to its [handlers] attribute stays. *)
Theorem redirect_leaves_other_loggers (loggers : option (list logger))
    (tqdm_class : nat) (body : heap -> outcome unit * heap) (m : heap)
    (lg : logger)
    (Hout : lg ∉ default [root] loggers)
    (Halloc : (handlers m lg < next m)%nat) :
  let '(_, _, m1) := enter loggers tqdm_class m in
  handlers m1 lg = handlers m lg /\
  handlers_of m1 lg = handlers_of m lg /\
  handlers (snd (logging_redirect_tqdm loggers tqdm_class body m)) lg
  = handlers (snd (body m1)) lg /\
  lists (snd (logging_redirect_tqdm loggers tqdm_class body m))
  = lists (snd (body m1)).
Proof.
  unfold logging_redirect_tqdm, enter.
  set (ls := default [root] loggers) in *.
  set (m1 := fold_left (redirect_one tqdm_class) ls m).
  assert (handlers m1 lg = handlers m lg) as Hptr
    by by apply redirect_loop_other.
  split; [done|]. split.
  - unfold handlers_of. rewrite Hptr. by apply redirect_loop_old.
  - destruct (body m1) as [r m2]. simpl.
    split; [by apply restore_other|apply restore_lists].
Qed.

Lemma redirect_leaves_other_loggers_witness :
  let '(_, _, m1) := enter (Some [1; 1; 2]%nat) 0 sample_heap in
  handlers m1 3%nat = 3%nat /\
  handlers_of m1 3%nat = handlers_of sample_heap 3%nat.
Proof.
  pose proof (redirect_leaves_other_loggers (Some [1; 1; 2]%nat) 0
                sample_body sample_heap 3%nat) as H.
  destruct (enter _ _ _) as [[ls saved] m1].
  destruct H as (H1 & H2 & _).
  - apply (bool_decide_unpack _). by vm_compute.
  - vm_compute. lia.
  - by split.
Defined.

(** The handler that the redirect makes from the first console handler of a
    list. *)
Lemma redirect_one_exact cls m lg :
  handlers_of (redirect_one cls m lg) lg
  = not_console (handlers_of m lg) ++ [tqdm_handler_for cls (handlers_of m lg)].
Proof.
  unfold redirect_one, assign_new_list, handlers_of at 1, tqdm_handler_for.
  simpl. rewrite !fn_lookup_insert.
  by destruct (_get_first_found_console_logging_handler _).
Qed.

Lemma redirect_loop_frame cls ls m lg :
  lg ∉ ls -> (handlers m lg < next m)%nat ->
  handlers_of (fold_left (redirect_one cls) ls m) lg = handlers_of m lg.
Proof.
  intros Hnot Hlt. unfold handlers_of.
  rewrite redirect_loop_other by done. by apply redirect_loop_old.
Qed.

(** logging.py 86-98. For a logger that the list names once, the handler
    put in place of its console handlers writes to the stream, and with the
    formatter, of the first console handler the logger had; when it had
    none, the handler writes to [sys.stderr] and has no formatter. With no
    list given, this is what happens to the root logger. *)
Theorem redirect_handler_inherits (before after : list logger)
    (lg : logger) (tqdm_class : nat) (m : heap)
    (Hb : lg ∉ before) (Ha : lg ∉ after)
    (Halloc : (handlers m lg < next m)%nat) :
  let '(_, _, m1) := enter (Some (before ++ lg :: after)) tqdm_class m in
  handlers_of m1 lg
  = not_console (handlers_of m lg) ++
    [match _get_first_found_console_logging_handler (handlers_of m lg) with
     | Some (StreamHandler s f) | Some (TqdmLoggingHandler _ s f) =>
         TqdmLoggingHandler tqdm_class s f
     | _ => TqdmLoggingHandler tqdm_class Stderr None
     end] /\
  (before = [] -> after = [] -> lg = root ->
   enter None tqdm_class m = enter (Some (before ++ lg :: after)) tqdm_class m).
Proof.
  unfold enter. simpl default. split.
  - rewrite fold_left_app. simpl.
    set (m0 := fold_left (redirect_one tqdm_class) before m).
    assert (handlers_of m0 lg = handlers_of m lg) as H0
      by by apply redirect_loop_frame.
    rewrite redirect_loop_frame; [| done |].
    + rewrite redirect_one_exact, H0. unfold tqdm_handler_for.
      destruct (_get_first_found_console_logging_handler (handlers_of m lg))
        as [o|] eqn:Ho; [|done].
      apply first_console_is_console in Ho. by destruct o.
    + unfold redirect_one. simpl. rewrite fn_lookup_insert. lia.
  - by intros -> -> ->.
Qed.

Lemma redirect_handler_inherits_witness :
  let '(_, _, m1) := enter (Some ([2] ++ 1 :: [3])%nat) 0 sample_heap in
  handlers_of m1 1%nat
  = [StreamHandler (OtherStream 3) None;
     TqdmLoggingHandler 0 Stderr (Some 5%nat)].
Proof.
  pose proof (redirect_handler_inherits [2%nat] [3%nat] 1%nat 0 sample_heap)
    as H.
  destruct (enter _ _ _) as [[ls saved] m1].
  destruct H as [H _].
  - apply (bool_decide_unpack _). by vm_compute.
  - apply (bool_decide_unpack _). by vm_compute.
  - vm_compute. lia.
  - exact H.
Defined.

End MoreLogging.

Section LoggingMeter.
Import logging_tqdm.

Lemma display_logger n str_self msg self :
  _logger (fst (display n str_self msg self)) = _logger self.
Proof. unfold display. by repeat case_match. Qed.

Lemma display_counter n str_self msg self :
  _last_log_n (fst (display n str_self msg self))
  = if n =? 0 then _last_log_n self else n.
Proof.
  unfold display. destruct (n =? 0) eqn:H0; [done|].
  destruct (n =? _last_log_n self) eqn:Hl;
    [by apply Z.eqb_eq in Hl|by case_match].
Qed.

(** logging.py 199-214. Along any run of calls of [display], [_last_log_n]
    is the last counter that was not zero (or its initial value), every call
    logs exactly one record, and a progress record is logged only for a
    counter that is not zero and differs from the last counter that was not
    zero: there are at most as many progress records as such steps, exactly
    as many when no message is empty. Progress records go to the logger of
    the meter and are never empty. *)
Theorem displays_log_progress_steps (calls : list (Z * str * option str))
    (self : t) :
  let ns := List.map (fun c => fst (fst c)) calls in
  let '(self', out) := displays calls self in
  _last_log_n self' = last_counter ns (_last_log_n self) /\
  _logger self' = _logger self /\
  length out = length calls /\
  (length (List.filter is_info out)
   <= progress_steps ns (_last_log_n self))%nat /\
  (Forall (fun c => default (snd (fst c)) (snd c) <> []) calls ->
   length (List.filter is_info out) = progress_steps ns (_last_log_n self)) /\
  Forall (fun ev =>
            match ev with
            | Info lg msg => lg = _get_logger self /\ msg <> []
            | Debug _ => True
            end) out.
Proof.
  revert self. induction calls as [|[[n str_self] msg] calls IH]; intros self.
  - simpl. by repeat split.
  - simpl. destruct (display n str_self msg self) as [self1 out1] eqn:Hd.
    specialize (IH self1). destruct (displays calls self1) as [self2 out2].
    pose proof (display_logger n str_self msg self) as Hlg.
    pose proof (display_counter n str_self msg self) as Hct.
    rewrite Hd in Hlg, Hct. simpl in Hlg, Hct.
    destruct IH as (IH1 & IH2 & IH3 & IH4 & IH5 & IH6).
    rewrite Hct in IH1, IH4, IH5.
    assert (_get_logger self1 = _get_logger self) as Hget
      by (unfold _get_logger; by rewrite Hlg).
    rewrite Hget in IH6.
    rewrite List.filter_app, !length_app.
    unfold display in Hd.
    destruct (n =? 0) eqn:H0; simpl.
    { simplify_eq. simpl. split; [done|]. split; [congruence|].
      split; [by rewrite IH3|]. split; [done|]. split.
      - intros Hall. apply IH5. by inversion Hall.
      - by constructor. }
    destruct (n =? _last_log_n self) eqn:Hl; simpl.
    { simplify_eq. simpl. split; [done|]. split; [congruence|].
      split; [by rewrite IH3|]. split; [done|]. split.
      - intros Hall. apply IH5. by inversion Hall.
      - by constructor. }
    destruct (str_eqb (default str_self msg) []) eqn:He.
    { simplify_eq. simpl. split; [done|]. split; [congruence|].
      split; [by rewrite IH3|]. split; [lia|]. split.
      - intros Hall. inversion Hall as [|? ? Hne Hrest]; subst.
        simpl in Hne. by apply bool_decide_eq_true in He.
      - by constructor. }
    simplify_eq. simpl. split; [done|]. split; [congruence|].
    split; [by rewrite IH3|]. split; [lia|]. split.
    + intros Hall. f_equal. apply IH5. by inversion Hall.
    + constructor; [|done]. split; [done|].
      by apply bool_decide_eq_false in He.
Qed.

(** logging.py 199-214. Two calls of [display] in a row with the same
    counter: the second logs no progress record and changes nothing,
    whatever the messages, also when the first call logged nothing because
    its message was empty. *)
Theorem display_same_counter_logs_once (n : Z) (str1 str2 : str)
    (msg1 msg2 : option str) (self : t) :
  let '(self1, _) := display n str1 msg1 self in
  exists d, display n str2 msg2 self1 = (self1, [Debug d]).
Proof.
  destruct (display n str1 msg1 self) as [self1 out1] eqn:Hd.
  pose proof (display_counter n str1 msg1 self) as Hct.
  rewrite Hd in Hct. simpl in Hct. unfold display.
  destruct (n =? 0) eqn:H0; [by eexists|].
  rewrite Hct, Z.eqb_refl. by eexists.
Qed.

(** logging.py 169-192. With two or more positional arguments the
    constructor of the logging meter always fails, after calling the base
    constructor on an empty iterable with [disable=True] and not on the
    caller's arguments. Otherwise the base constructor gets the positional
    arguments, never the key [logger], the defaults of [mininterval],
    [bar_format] and [desc] only where the caller gave none, and every
    other keyword argument unchanged; the meter starts with
    [_last_log_n = -1] and the logger given, or [None]. *)
Theorem logging_meter_constructor (E : env) (args : list value)
    (kwargs : gmap string value) (h : trace) :
  let '(r, h') := __init__ E args kwargs h in
  if decide (2 <= length args)%nat then
    exists a,
      h' = h ++ [EvStdInit [VList []] {[ "disable" := VBool true ]} a] /\
      exists e, r = inr e
  else
    exists kw a,
      h' = h ++ [EvStdInit args kw a] /\
      kw !! "logger" = None /\
      kw !! "mininterval" = Some (default (VInt 1) (kwargs !! "mininterval")) /\
      kw !! "bar_format"
      = Some (default (VStr (py "{desc}{percentage:3.0f}%{r_bar}"))
                (kwargs !! "bar_format")) /\
      kw !! "desc"
      = Some (default (VStr (py "progress: ")) (kwargs !! "desc")) /\
      (forall k, k <> "logger" -> k <> "mininterval" -> k <> "bar_format" ->
                 k <> "desc" -> kw !! k = kwargs !! k) /\
      match a with
      | Returned f =>
          r = inl (Build (default VNone (kwargs !! "logger")) (-1), f)
      | Raised e => r = inr (BaseError e)
      end.
Proof.
  unfold __init__. case_decide as Hargs.
  - destruct (std_init_answer E h _ _) eqn:Ha; eexists; split; try done;
      by eexists.
  - cbv zeta. set (kw := setdefault "desc" _ _).
    assert (forall k d (m : gmap string value) k',
              setdefault k d m !! k'
              = if decide (k = k') then Some (default d (m !! k)) else m !! k')
      as Hsd.
    { intros k d m k'. unfold setdefault.
      destruct (m !! k) eqn:Hk; case_decide; simplify_map_eq; done. }
    destruct (std_init_answer E h args kw) eqn:Ha; eexists kw, _;
      (split; [done|]); subst kw; repeat split;
      try (intros k ? ? ? ?); rewrite ?Hsd; by simplify_map_eq.
Qed.

End LoggingMeter.

Section Handler.
Import TqdmLoggingHandler.

(** logging.py 29-37. [emit] calls [format], [write] and [flush] in this
    order, each with the answer of the world after the calls before it, and
    [write] with the message that [format] returned and the stream of the
    handler. It goes on to the next of the three exactly when a call
    returns, and stops at the first that raises. After an exception other
    than [KeyboardInterrupt] and [SystemExit], raised by any of the three,
    it calls [handleError] once on the record; after one of these two, or
    when all three returned, it makes no further call. What [emit] raises
    or returns is what its last call raised or returned. *)
Theorem emit_routes_exceptions (W : world) (stream : Logging.stream)
    (record : nat) (h : list call) :
  let '(h', r) := emit W stream record h in
  exists steps handled,
    h' = h ++ steps ++ handled /\
    r = last (steps ++ handled) ≫= raised_by /\
    steps <> [] /\
    List.map kind steps = take (length steps) [KFormat; KWrite; KFlush] /\
    answered W h steps /\
    Forall (fun c =>
              match c with
              | Format rec _ => rec = record
              | TqdmWrite msg st _ =>
                  st = stream /\ head steps = Some (Format record (inl msg))
              | _ => True
              end) steps /\
    Forall (fun c => raised_by c = None) (removelast steps) /\
    (last steps ≫= raised_by = None -> length steps = 3%nat) /\
    handled
    = match last steps ≫= raised_by with
      | Some (OtherException _) =>
          [HandleError record (handleError_answer W (h ++ steps) record)]
      | _ => []
      end.
Proof.
  unfold emit, emit_body.
  destruct (format_answer W h record) as [msg|e] eqn:Hf.
  - destruct (write_answer W _ msg stream) as [e|] eqn:Hw.
    + destruct e as [| |e];
        eexists [Format record (inl msg); TqdmWrite msg stream (Some _)], _;
        simpl; rewrite <- ?app_assoc in *; simpl in *;
        (split; [reflexivity|]); simpl;
        by repeat (split; [by repeat constructor|]).
    + destruct (flush_answer W _) as [e|] eqn:Hfl.
      * destruct e as [| |e];
          eexists [Format record (inl msg); TqdmWrite msg stream None;
                   Flush (Some _)], _;
          simpl; rewrite <- ?app_assoc in *; simpl in *;
          (split; [reflexivity|]); simpl;
          by repeat (split; [by repeat constructor|]).
      * exists [Format record (inl msg); TqdmWrite msg stream None;
                Flush None], [].
        simpl; rewrite <- ?app_assoc in *; simpl in *.
        split; [reflexivity|].
        by repeat (split; [by repeat constructor|]).
  - destruct e as [| |e]; eexists [Format record (inr _)], _;
      simpl; rewrite <- ?app_assoc in *; simpl in *;
      (split; [reflexivity|]); simpl;
      by repeat (split; [by repeat constructor|]).
Qed.

End Handler.
